(** * konekielivelho: TITO bank statement to CSV

    A shallow embedding of [konekielivelho.py] and the properties of its
    record classifier, transaction grouper and payment builder.

    Text is modelled as lists of 8-bit characters: a character is its code
    point, so the model covers the ISO 646 / Latin-1 range that TITO files
    and the converted Scandinavian letters live in. *)

From Stdlib Require Import List Ascii String Bool Arith ZArith Lia.
Import ListNotations.

Set Implicit Arguments.

(** ** Python values and built-ins used by the program *)

Definition str := list ascii.

(** A Python string literal. *)
Definition py (s : string) : str := list_ascii_of_string s.

Definition ord (c : ascii) : nat := nat_of_ascii c.
Definition chr (n : nat) : ascii := ascii_of_nat n.

Definition LF : ascii := chr 10.

Inductive exn := IndexError | ValueError.

Inductive result (A : Type) :=
| Ok (a : A)
| Raise (e : exn).
Arguments Ok {A} a.
Arguments Raise {A} e.

Definition bind {A B} (c : result A) (f : A -> result B) : result B :=
  match c with
  | Ok a => f a
  | Raise e => Raise e
  end.

Declare Scope py_scope.
Delimit Scope py_scope with py.
Notation "x <- c ;; k" := (bind c (fun x => k))
  (at level 61, c at next level, right associativity) : py_scope.
Open Scope py_scope.

(** [str.isspace] on one character, Latin-1 range. *)
Definition isspace (c : ascii) : bool :=
  let n := ord c in
  ((9 <=? n) && (n <=? 13)) || ((28 <=? n) && (n <=? 32))
  || (n =? 133) || (n =? 160).

(** [str.isdigit] restricted to the decimal digits of the Latin-1 range. *)
Definition isdigit (c : ascii) : bool :=
  let n := ord c in (48 <=? n) && (n <=? 57).

Definition digit_value (c : ascii) : Z := Z.of_nat (ord c - 48).

(** [str.lower] on one character, Latin-1 range. *)
Definition lower (c : ascii) : ascii :=
  let n := ord c in
  if ((65 <=? n) && (n <=? 90))
     || ((192 <=? n) && (n <=? 222) && negb (n =? 215))
  then chr (n + 32) else c.

(** [s.lstrip(chars)] and [s.rstrip(chars)], the set given as a predicate. *)
Fixpoint lstrip_by (p : ascii -> bool) (s : str) : str :=
  match s with
  | c :: r => if p c then lstrip_by p r else s
  | [] => []
  end.

Definition rstrip_by (p : ascii -> bool) (s : str) : str :=
  rev (lstrip_by p (rev s)).

(** [s.strip()] *)
Definition strip (s : str) : str := rstrip_by isspace (lstrip_by isspace s).

(** [s[a:b]] for [0 <= a]; Python clamps both ends to the string. *)
Definition slice (a b : nat) (s : str) : str := firstn (b - a) (skipn a s).

(** [s[a::]] *)
Definition slice_from (a : nat) (s : str) : str := skipn a s.

(** [sep.join(l)] *)
Fixpoint join (sep : str) (l : list str) : str :=
  match l with
  | [] => []
  | [x] => x
  | x :: r => x ++ sep ++ join sep r
  end.

(** [s.startswith(p)] *)
Fixpoint startswith (s p : str) {struct p} : bool :=
  match p with
  | [] => true
  | c :: p' =>
      match s with
      | d :: s' => Ascii.eqb d c && startswith s' p'
      | [] => false
      end
  end.

(** [s.splitlines()]: the line boundaries of the Latin-1 range are
    LF, VT, FF, CR, CR LF, FS, GS, RS and NEL. *)
Definition is_linebreak (c : ascii) : bool :=
  let n := ord c in
  ((10 <=? n) && (n <=? 13)) || ((28 <=? n) && (n <=? 30)) || (n =? 133).

Fixpoint splitlines_from (cur : str) (s : str) : list str :=
  match s with
  | [] => match cur with [] => [] | _ => [rev cur] end
  | c :: rest =>
      if is_linebreak c then
        rev cur ::
          match rest with
          | d :: rest' =>
              if (ord c =? 13) && (ord d =? 10)
              then splitlines_from [] rest'
              else splitlines_from [] rest
          | [] => []
          end
      else splitlines_from (c :: cur) rest
  end.

Definition splitlines (s : str) : list str := splitlines_from [] s.

(** ** The regular expressions of module [re] that the program uses *)

Module Re.

Record flags := { IGNORECASE : bool; MULTILINE : bool }.

Inductive regex :=
| Empty
| Chr (c : ascii)            (* a literal character *)
| Any                        (* [.] *)
| Bol                        (* [^] *)
| Eol                        (* [$] *)
| Seq (r1 r2 : regex)
| Alt (r1 r2 : regex)        (* [r1|r2] *)
| Star (r : regex).          (* [r*] *)

(** A literal word, character by character. *)
Fixpoint word (w : str) : regex :=
  match w with
  | [] => Empty
  | c :: w' => Seq (Chr c) (word w')
  end.

Definition chr_matches (fl : flags) (c x : ascii) : bool :=
  if IGNORECASE fl then Ascii.eqb (lower x) (lower c) else Ascii.eqb x c.

(** [^]: at the start of the string, or (MULTILINE) just after a newline.
    The position is known by the character before it, if any. *)
Definition at_bol (fl : flags) (prev : option ascii) : bool :=
  match prev with
  | None => true
  | Some p => MULTILINE fl && Ascii.eqb p LF
  end.

(** [$]: at the end of the string or just before the newline that ends
    it, or (MULTILINE) before any newline. *)
Definition at_eol (fl : flags) (rest : str) : bool :=
  match rest with
  | [] => true
  | c :: rest' =>
      Ascii.eqb c LF && (MULTILINE fl || match rest' with [] => true | _ => false end)
  end.

Definition cont := option ascii -> str -> bool.

(** Greedy repetition of one [step], at most [fuel] times; an iteration
    that consumes nothing is not repeated.  As in the matcher below, what
    follows is tried only when what precedes has matched. *)
Fixpoint star (step : option ascii -> str -> cont -> bool) (fuel : nat)
         (prev : option ascii) (s : str) (k : cont) : bool :=
  match fuel with
  | 0 => k prev s
  | S fuel' =>
      if step prev s
           (fun prev' s' =>
              if List.length s' <? List.length s
              then star step fuel' prev' s' k
              else false)
      then true
      else k prev s
  end.

(** The backtracking matcher: does [r] match at the current position
    ([prev] is the character before it, [s] the text from it on) so that
    the continuation [k] accepts what follows? *)
Fixpoint matcher (fl : flags) (r : regex) (prev : option ascii) (s : str)
         (k : cont) {struct r} : bool :=
  match r with
  | Empty => k prev s
  | Chr c =>
      match s with
      | x :: s' => if chr_matches fl c x then k (Some x) s' else false
      | [] => false
      end
  | Any =>
      match s with
      | x :: s' => if Ascii.eqb x LF then false else k (Some x) s'
      | [] => false
      end
  | Bol => if at_bol fl prev then k prev s else false
  | Eol => if at_eol fl s then k prev s else false
  | Seq r1 r2 => matcher fl r1 prev s (fun prev' s' => matcher fl r2 prev' s' k)
  | Alt r1 r2 => if matcher fl r1 prev s k then true else matcher fl r2 prev s k
  | Star r1 => star (matcher fl r1) (List.length s) prev s k
  end.

(** [re.match(pattern, string)], as a truth value: the pattern matches at
    the beginning of the string. *)
Definition re_match (fl : flags) (r : regex) (s : str) : bool :=
  matcher fl r None s (fun _ _ => true).

(** The character before the position reached after reading [a]. *)
Definition prev_after (prev : option ascii) (a : str) : option ascii :=
  fold_left (fun _ x => Some x) a prev.

(** What the patterns mean: [Matches fl r prev a b] says that [r], at a
    position preceded by [prev], matches exactly the text [a] when [b]
    follows it. *)
Inductive Matches (fl : flags) : regex -> option ascii -> str -> str -> Prop :=
| MEmpty p b : Matches fl Empty p [] b
| MChr c x p b : chr_matches fl c x = true -> Matches fl (Chr c) p [x] b
| MAny x p b : x <> LF -> Matches fl Any p [x] b
| MBol p b : at_bol fl p = true -> Matches fl Bol p [] b
| MEol p b : at_eol fl b = true -> Matches fl Eol p [] b
| MSeq r1 r2 p a1 a2 b :
    Matches fl r1 p a1 (a2 ++ b) ->
    Matches fl r2 (prev_after p a1) a2 b ->
    Matches fl (Seq r1 r2) p (a1 ++ a2) b
| MAltL r1 r2 p a b : Matches fl r1 p a b -> Matches fl (Alt r1 r2) p a b
| MAltR r1 r2 p a b : Matches fl r2 p a b -> Matches fl (Alt r1 r2) p a b
| MStarNil r p b : Matches fl (Star r) p [] b
| MStarCons r p a1 a2 b :
    a1 <> [] ->
    Matches fl r p a1 (a2 ++ b) ->
    Matches fl (Star r) (prev_after p a1) a2 b ->
    Matches fl (Star r) p (a1 ++ a2) b.

(** A matching function [step] decides the pattern [r]: it succeeds
    exactly when [r] matches a prefix that the continuation accepts. *)
Definition step_ok (fl : flags) (step : option ascii -> str -> cont -> bool)
           (r : regex) : Prop :=
  forall p s k,
    step p s k = true <->
    exists a b, s = a ++ b /\ Matches fl r p a b /\ k (prev_after p a) b = true.

(** [re.sub(r'[,.]', '', s)]-like deletion of every character of a class. *)
Definition sub_class_empty (cls : ascii -> bool) (s : str) : str :=
  filter (fun c => negb (cls c)) s.

(** [re.sub(c, d, s)] for a pattern that is one literal character. *)
Definition sub_chr (c d : ascii) (s : str) : str :=
  map (fun x => if Ascii.eqb x c then d else x) s.

End Re.

(** ** Library functions the payment builder calls *)

(** A [datetime] whose time of day is midnight, as [strptime] with a
    date-only format returns it. *)
Record datetime := { year : Z; month : Z; day : Z }.

Definition is_leap (y : Z) : bool :=
  ((y mod 4 =? 0) && negb (y mod 100 =? 0) || (y mod 400 =? 0))%Z.

Definition days_in_month (y m : Z) : Z :=
  (if m =? 2 then (if is_leap y then 29 else 28)
   else if (m =? 4) || (m =? 6) || (m =? 9) || (m =? 11) then 30
   else 31)%Z.

Definition digit_in (lo hi : nat) (c : ascii) : bool :=
  (48 + lo <=? ord c) && (ord c <=? 48 + hi).

(** The directive [%m] is the pattern [1[0-2]|0[1-9]|[1-9]]: the ways it can
    match at the front of [s], in the order the matcher tries them, each
    with the month read and the text left. *)
Definition month_alternatives (s : str) : list (Z * str) :=
  match s with
  | a :: b :: r =>
      if Ascii.eqb a "1" && digit_in 0 2 b then [(10 + digit_value b, r)%Z] else []
  | _ => []
  end ++
  match s with
  | a :: b :: r =>
      if Ascii.eqb a "0" && digit_in 1 9 b then [(digit_value b, r)] else []
  | _ => []
  end ++
  match s with
  | a :: r => if digit_in 1 9 a then [(digit_value a, r)] else []
  | _ => []
  end.

(** The directive [%d] is the pattern [3[0-1]|[1-2]\d|0[1-9]|[1-9]| [1-9]]. *)
Definition day_alternatives (s : str) : list (Z * str) :=
  match s with
  | a :: b :: r =>
      if Ascii.eqb a "3" && digit_in 0 1 b then [(30 + digit_value b, r)%Z] else []
  | _ => []
  end ++
  match s with
  | a :: b :: r =>
      if digit_in 1 2 a && isdigit b
      then [(10 * digit_value a + digit_value b, r)%Z] else []
  | _ => []
  end ++
  match s with
  | a :: b :: r =>
      if Ascii.eqb a "0" && digit_in 1 9 b then [(digit_value b, r)] else []
  | _ => []
  end ++
  match s with
  | a :: r => if digit_in 1 9 a then [(digit_value a, r)] else []
  | _ => []
  end ++
  match s with
  | a :: b :: r =>
      if Ascii.eqb a " " && digit_in 1 9 b then [(digit_value b, r)] else []
  | _ => []
  end.

(** [datetime.strptime(s, '%y%m%d')].  The format is the pattern
    [(\d\d)(%m)(%d)] matched at the start of [s]; the first way it matches
    is kept, text left over is an error, and so is a day the month does not
    have.  Years 00-68 are 2000-2068, years 69-99 are 1969-1999. *)
Definition strptime_ymd (s : str) : result datetime :=
  match s with
  | y1 :: y2 :: s1 =>
      if isdigit y1 && isdigit y2 then
        let found :=
          flat_map (fun '(m, s2) =>
                      map (fun '(d, s3) => (m, d, s3)) (day_alternatives s2))
                   (month_alternatives s1) in
        match found with
        | (m, d, []) :: _ =>
            let yy := (10 * digit_value y1 + digit_value y2)%Z in
            let y := (if yy <=? 68 then 2000 + yy else 1900 + yy)%Z in
            if (d <=? days_in_month y m)%Z
            then Ok {| year := y; month := m; day := d |}
            else Raise ValueError
        | _ => Raise ValueError
        end
      else Raise ValueError
  | _ => Raise ValueError
  end.

(** The white space [int] skips around a number, Latin-1 range. *)
Definition int_isspace (c : ascii) : bool :=
  let n := ord c in
  ((9 <=? n) && (n <=? 13)) || (n =? 32) || (n =? 133) || (n =? 160).

(** The digits after the first: a single underscore may separate two
    digits. *)
Fixpoint int_digits (acc : Z) (s : str) : option Z :=
  match s with
  | [] => Some acc
  | c :: r =>
      if isdigit c then int_digits (10 * acc + digit_value c) r
      else if Ascii.eqb c "_" then
        match r with
        | d :: r' =>
            if isdigit d then int_digits (10 * acc + digit_value d) r' else None
        | [] => None
        end
      else None
  end.

Definition int_unsigned (s : str) : option Z :=
  match s with
  | c :: r => if isdigit c then int_digits (digit_value c) r else None
  | [] => None
  end.

(** [int(s)] for a string [s], base 10. *)
Definition int (s : str) : result Z :=
  let body := rstrip_by int_isspace (lstrip_by int_isspace s) in
  let '(sign, digits) :=
    match body with
    | c :: r =>
        if Ascii.eqb c "-" then ((-1)%Z, r)
        else if Ascii.eqb c "+" then (1%Z, r)
        else (1%Z, body)
    | [] => (1%Z, body)
    end in
  match int_unsigned digits with
  | Some n => Ok (sign * n)%Z
  | None => Raise ValueError
  end.

(** ** class BankEventType *)

Module BankEventType.
Import Re.

Definition HEADER := py "T00".
Definition TRANSACTION := py "T10".
Definition SPECIFICATION := py "T11".
Definition BALANCE := py "T40".
Definition CUMULATIVE := py "T50".

Definition DESCRIPTION_FLAGS := {| IGNORECASE := false; MULTILINE := true |}.

(** [^T11...00.*$] *)
Definition DESCRIPTION_MATCHER : regex :=
  Seq Bol (Seq (word (py "T11")) (Seq Any (Seq Any (Seq Any
    (Seq (word (py "00")) (Seq (Star Any) Eol)))))).

Definition NOT_INTERESTING_FLAGS := {| IGNORECASE := true; MULTILINE := true |}.

(** [^.*(PALVELUMAKSU|S.*ST.*LIPAS|ITSEPALVELU).*$] *)
Definition NOT_INTERESTING_MATCHER : regex :=
  Seq Bol (Seq (Star Any)
    (Seq (Alt (word (py "PALVELUMAKSU"))
           (Alt (Seq (word (py "S")) (Seq (Star Any) (Seq (word (py "ST"))
                   (Seq (Star Any) (word (py "LIPAS"))))))
                (word (py "ITSEPALVELU"))))
         (Seq (Star Any) Eol))).

Definition is_transaction (string : str) : bool :=
  startswith string TRANSACTION.

(** The source returns the match object or [None]; only its truth value
    is used. *)
Definition is_description (string : str) : bool :=
  re_match DESCRIPTION_FLAGS DESCRIPTION_MATCHER string.

Definition is_interesting (string : str) : bool :=
  negb (re_match NOT_INTERESTING_FLAGS NOT_INTERESTING_MATCHER string).

End BankEventType.

(** ** class Payment *)

Record Payment := {
  p_datetime : datetime;
  amount : Z;
  payer : str;
  reference : str;
  message : str
}.

Definition DICT_FIELDS : list str :=
  [py "datetime"; py "amount"; py "payer"; py "reference"; py "message"].

(** The inner function [parse_message] of [parse_from_list]. *)
Definition parse_message (msg_string : str) : str :=
  if List.length msg_string <=? 8 then []
  else strip (slice_from 8 msg_string).

Definition is_comma_or_period (c : ascii) : bool :=
  Ascii.eqb c "," || Ascii.eqb c ".".

Definition is_zero_char (c : ascii) : bool := Ascii.eqb c "0".

Definition parse_from_list (rows : list str) : result Payment :=
  match rows with
  | [] => Raise IndexError
  | payment_row :: _ =>
      let str_datetime := strip (slice 42 48 payment_row) in
      let str_amount :=
        Re.sub_class_empty is_comma_or_period (strip (slice 87 106 payment_row)) in
      let str_payer := strip (slice 108 143 payment_row) in
      let str_reference :=
        lstrip_by is_zero_char (strip (slice 160 179 payment_row)) in
      dt <- strptime_ymd str_datetime ;;
      amt <- int str_amount ;;
      let msg :=
        if 1 <? List.length rows
        then join [LF] (map parse_message (tl rows))
        else [] in
      Ok {| p_datetime := dt; amount := amt; payer := str_payer;
            reference := str_reference; message := msg |}
  end.

(** ** convert_ascii_alphabets *)

Definition substitutions : list (ascii * ascii) :=
  [ ("]"%char, chr 197); ("["%char, chr 196); ("\"%char, chr 214);
    ("}"%char, chr 229); ("{"%char, chr 228); ("|"%char, chr 246) ].

Definition convert_ascii_alphabets (string : str) : str :=
  fold_left (fun acc s => Re.sub_chr (fst s) (snd s) acc) substitutions string.

(** ** main *)

Import BankEventType.

(** The [while True] loop of [main]: [following] is [contents[j:]] for the
    current [j]; reading [contents[j]] past the last line raises. *)
Fixpoint take_descriptions (transaction : list str) (following : list str)
  : result (list str) :=
  match following with
  | [] => Raise IndexError
  | line :: following' =>
      if is_description line
      then take_descriptions (transaction ++ [line]) following'
      else Ok transaction
  end.

(** The [for (i, v) in enumerate(contents)] loop: [contents_from_i] is
    [contents[i:]], and the next iteration sees [contents[i+1:]] whatever
    the inner loop read. *)
Fixpoint scan (transactions : list (list str)) (contents_from_i : list str)
  : result (list (list str)) :=
  match contents_from_i with
  | [] => Ok transactions
  | v :: following =>
      if is_transaction v && is_interesting v then
        transaction <- take_descriptions [v] following ;;
        scan (transactions ++ [transaction]) following
      else scan transactions following
  end.

Definition group_transactions (contents : list str) : result (list (list str)) :=
  scan [] contents.

(** What a run leaves behind: the rows of the output file if it was opened,
    what was printed, and the exception that ended the run, if any. *)
Inductive csv_row :=
| HeaderRow (fieldnames : list str)
| PaymentRow (p : Payment).

Inductive printed :=
| WroteTransactions (n : nat)
| NoInterestingTransactions.

Record outcome := {
  output_file : option (list csv_row);
  stdout : list printed;
  raised : option exn
}.

(** [for p in payments: writer.writerow(p.__dict__)] over the lazy
    [map(Payment.parse_from_list, transactions)]: a group is parsed when its
    row is due, so the rows before a failing group are already written. *)
Fixpoint write_rows (written : list csv_row) (transactions : list (list str))
  : list csv_row * option exn :=
  match transactions with
  | [] => (written, None)
  | t :: rest =>
      match parse_from_list t with
      | Ok p => write_rows (written ++ [PaymentRow p]) rest
      | Raise e => (written, Some e)
      end
  end.

(** [main], from the text read from the input file on. *)
Definition main (filecontents : str) : outcome :=
  let contents := splitlines (convert_ascii_alphabets filecontents) in
  match group_transactions contents with
  | Raise e => {| output_file := None; stdout := []; raised := Some e |}
  | Ok [] =>
      {| output_file := None; stdout := [NoInterestingTransactions];
         raised := None |}
  | Ok transactions =>
      match write_rows [HeaderRow DICT_FIELDS] transactions with
      | (rows, None) =>
          {| output_file := Some rows;
             stdout := [WroteTransactions (List.length transactions)];
             raised := None |}
      | (rows, Some e) =>
          {| output_file := Some rows; stdout := []; raised := Some e |}
      end
  end.

(** ** Notions the properties are stated with *)

(** A line, as [splitlines] yields them: no line boundary inside. *)
Definition is_line (L : str) : Prop :=
  Forall (fun c => is_linebreak c = false) L.

(** [x] occurs in [y] as a substring. *)
Fixpoint is_infix (x y : str) : bool :=
  startswith y x ||
  match y with
  | [] => false
  | _ :: y' => is_infix x y'
  end.

(** [L] contains the word [w], letter case ignored. *)
Definition contains_ci (w L : str) : bool :=
  is_infix (map lower w) (map lower L).

(** [x] is the word [w] up to letter case. *)
Definition eq_ci (x w : str) : Prop := map lower x = map lower w.

(** [L] contains the three words in this order, with any text between
    them, letter case ignored. *)
Definition contains_in_order_ci (w1 w2 w3 L : str) : Prop :=
  exists a x b y c z d,
    L = a ++ x ++ b ++ y ++ c ++ z ++ d /\
    eq_ci x w1 /\ eq_ci y w2 /\ eq_ci z w3.

(** All substrings of [y] that start at its first character, and all its
    substrings. *)
Fixpoint prefixes (y : str) : list str :=
  [] :: match y with
        | [] => []
        | c :: y' => map (cons c) (prefixes y')
        end.

Fixpoint infixes (y : str) : list str :=
  prefixes y ++
  match y with
  | [] => []
  | _ :: y' => infixes y'
  end.

(** The test of the outer loop of [main]. *)
Definition starts_group (v : str) : bool :=
  BankEventType.is_transaction v && BankEventType.is_interesting v.

(** The longest prefix of [l] whose elements satisfy [p]. *)
Fixpoint take_while {A} (p : A -> bool) (l : list A) : list A :=
  match l with
  | x :: l' => if p x then x :: take_while p l' else []
  | [] => []
  end.

(** The groups of a line sequence, said directly: each interesting
    Transaction line, with the description lines that follow it without a
    gap. *)
Fixpoint groups_of (contents : list str) : list (list str) :=
  match contents with
  | [] => []
  | v :: following =>
      if starts_group v
      then (v :: take_while BankEventType.is_description following)
             :: groups_of following
      else groups_of following
  end.

(** The lines [main] scans. *)
Definition decoded_lines (filecontents : str) : list str :=
  splitlines (convert_ascii_alphabets filecontents).

(** The payments built before the first group that fails to parse, and the
    exception of that group, if any. *)
Fixpoint payments_built (transactions : list (list str)) : list Payment :=
  match transactions with
  | [] => []
  | t :: rest =>
      match parse_from_list t with
      | Ok p => p :: payments_built rest
      | Raise _ => []
      end
  end.

Fixpoint first_failure (transactions : list (list str)) : option exn :=
  match transactions with
  | [] => None
  | t :: rest =>
      match parse_from_list t with
      | Ok _ => first_failure rest
      | Raise e => Some e
      end
  end.

(** The year a two-digit year stands for. *)
Definition full_year (yy : Z) : Z :=
  (if yy <=? 68 then 2000 + yy else 1900 + yy)%Z.

(** A date written as two digits of year, two of month and two of day that
    names a day of the calendar. *)
Definition well_formed_yymmdd (s : str) : bool :=
  match s with
  | [y1; y2; m1; m2; d1; d2] =>
      forallb isdigit s &&
      (let y := full_year (10 * digit_value y1 + digit_value y2) in
       let m := 10 * digit_value m1 + digit_value m2 in
       let d := 10 * digit_value d1 + digit_value d2 in
       (1 <=? m) && (m <=? 12) && (1 <=? d) && (d <=? days_in_month y m))%Z
  | _ => false
  end.

Definition date_of_yymmdd (s : str) : datetime :=
  match s with
  | [y1; y2; m1; m2; d1; d2] =>
      {| year := full_year (10 * digit_value y1 + digit_value y2);
         month := 10 * digit_value m1 + digit_value m2;
         day := 10 * digit_value d1 + digit_value d2 |}
  | _ => {| year := 0; month := 0; day := 0 |}
  end.

(** A Transaction line with the four fields at their columns, the rest
    blank. *)
Definition pad (n : nat) (s : str) : str :=
  s ++ repeat " "%char (n - List.length s).

Definition transaction_line (date amt pay ref : str) : str :=
  py "T10" ++ repeat " "%char 39 ++ pad 6 date ++ repeat " "%char 39
    ++ pad 19 amt ++ repeat " "%char 2 ++ pad 35 pay ++ repeat " "%char 17
    ++ pad 19 ref.

Definition sample_transaction : str :=
  transaction_line (py "150401") (py "000000001234") (py "JOHN DOE")
                   (py "0000123").

(** A description line with the given text after its eight-character
    prefix. *)
Definition description_line (text : str) : str := py "T11xxx00" ++ text.

(** The message of a group, as [parse_from_list] computes it. *)
Definition message_of (rows : list str) : str :=
  if 1 <? List.length rows then join [LF] (map parse_message (tl rows)) else [].

Definition digits : str := py "0123456789".

(** The pieces of [s] between the occurrences of [c]. *)
Fixpoint split_on (c : ascii) (s : str) : list str :=
  match s with
  | [] => [[]]
  | x :: s' =>
      if Ascii.eqb x c then [] :: split_on c s'
      else match split_on c s' with
           | piece :: pieces => (x :: piece) :: pieces
           | [] => [[x]]
           end
  end.

(** The texts [parse_from_list] hands to the date and integer parsers. *)
Definition date_field (payment_row : str) : str :=
  strip (slice 42 48 payment_row).

Definition amount_field (payment_row : str) : str :=
  Re.sub_class_empty is_comma_or_period (strip (slice 87 106 payment_row)).

(** The fragment of the message that a continuation line gives. *)
Definition fragment (line : str) : str :=
  if List.length line <=? 8 then [] else strip (skipn 8 line).

(** The six substitutions of [convert_ascii_alphabets] as one table, all
    looked up at once. *)
Definition scandic (c : ascii) : ascii :=
  if Ascii.eqb c "]" then chr 197
  else if Ascii.eqb c "[" then chr 196
  else if Ascii.eqb c "\" then chr 214
  else if Ascii.eqb c "}" then chr 229
  else if Ascii.eqb c "{" then chr 228
  else if Ascii.eqb c "|" then chr 246
  else c.

(** One character through the six substitutions, one after the other. *)
Definition convert_char (c : ascii) : ascii :=
  fold_left (fun x s => if Ascii.eqb x (fst s) then snd s else x)
            substitutions c.

(** The characters [convert_ascii_alphabets] replaces. *)
Definition national_characters : str := py "][\}{|".

(** Every character, by code point. *)
Definition all_chars : list ascii := map chr (seq 0 256).

(** The literal characters of a pattern match the same characters before
    and after the character map [f]. *)
Fixpoint respects (fl : Re.flags) (f : ascii -> ascii) (r : Re.regex) : Prop :=
  match r with
  | Re.Chr c => forall x, Re.chr_matches fl c (f x) = Re.chr_matches fl c x
  | Re.Seq r1 r2 | Re.Alt r1 r2 => respects fl f r1 /\ respects fl f r2
  | Re.Star r1 => respects fl f r1
  | _ => True
  end.

(** Two continuations that agree across the character map [f]. *)
Definition cont_agree (f : ascii -> ascii) (k' k : Re.cont) : Prop :=
  forall p s, k' (option_map f p) (map f s) = k p s.

(** The lines that end up in a group, in one pass: an interesting
    Transaction line, and a description line while [inside] the run that
    follows one. *)
Fixpoint grouped_lines (inside : bool) (contents : list str) : list str :=
  match contents with
  | [] => []
  | l :: rest =>
      if starts_group l then l :: grouped_lines true rest
      else if inside && BankEventType.is_description l
           then l :: grouped_lines true rest
           else grouped_lines false rest
  end.

(** The first character of [s] satisfies [p]. *)
Definition begins_with (p : ascii -> bool) (s : str) : bool :=
  match s with
  | c :: _ => p c
  | [] => false
  end.

(** The last character of [s] satisfies [p]. *)
Definition ends_with (p : ascii -> bool) (s : str) : bool :=
  begins_with p (rev s).

(** The number that a text of decimal digits writes. *)
Definition decimal_value (s : str) : Z :=
  fold_left (fun acc c => (10 * acc + digit_value c)%Z) s 0%Z.

(** The result of a computation, mapped when there is one. *)
Definition result_map {A B} (f : A -> B) (r : result A) : result B :=
  match r with
  | Ok a => Ok (f a)
  | Raise e => Raise e
  end.

(** A Transaction line that the suppression pattern matches, a small
    statement and the files it is read from. *)
Definition suppressed_transaction : str :=
  transaction_line (py "150402") (py "5,00") (py "PALVELUMAKSU") (py "0").

Definition sample_statement : list str :=
  [py "T00 statement"; sample_transaction;
   description_line (py "  INVOICE 42"); suppressed_transaction;
   description_line (py "  MONTHLY FEE"); sample_transaction; py "T40"].

Definition sample_file : str := join [LF] sample_statement.

Definition broken_file : str :=
  join [LF] [sample_transaction;
             transaction_line (py "15JAN1") (py "1,00") (py "JANE DOE") (py "7");
             sample_transaction; py "T40"].

(** The characters of [row] at the positions [a], ..., [b - 1], as far as
    [row] has them. *)
Definition chars_at (a b : nat) (row : str) : str :=
  flat_map (fun i => match nth_error row i with
                     | Some c => [c]
                     | None => []
                     end)
           (seq a (b - a)).

(** A number written with one digit, with two digits, and a number kept
    when it lies between [lo] and [hi]. *)
Definition numeral1 (a : ascii) : option Z :=
  if isdigit a then Some (digit_value a) else None.

Definition numeral2 (a b : ascii) : option Z :=
  if isdigit a && isdigit b
  then Some (10 * digit_value a + digit_value b)%Z else None.

Definition between (lo hi : Z) (n : option Z) : option Z :=
  match n with
  | Some v => if ((lo <=? v) && (v <=? hi))%Z then Some v else None
  | None => None
  end.

(** The month that a text writes: 1 to 12, with one digit or two. *)
Definition month_text (t : str) : option Z :=
  match t with
  | [a] => between 1 12 (numeral1 a)
  | [a; b] => between 1 12 (numeral2 a b)
  | _ => None
  end.

(** The day that a text writes: 1 to 31, with one digit, with two, or with
    a blank and a digit. *)
Definition day_text (t : str) : option Z :=
  match t with
  | [a] => between 1 31 (numeral1 a)
  | [a; b] =>
      if Ascii.eqb a " " then between 1 31 (numeral1 b)
      else between 1 31 (numeral2 a b)
  | _ => None
  end.

(** The ways to read a text as two digits of year, then a month, then a
    day, with nothing left: the month read with two characters first, then
    with one. *)
Definition date_readings (s : str) : list datetime :=
  match s with
  | y1 :: y2 :: rest =>
      if isdigit y1 && isdigit y2 then
        flat_map
          (fun k =>
             match month_text (firstn k rest), day_text (skipn k rest) with
             | Some m, Some d =>
                 [{| year := full_year (10 * digit_value y1 + digit_value y2);
                     month := m; day := d |}]
             | _, _ => []
             end)
          [2; 1]
      else []
  | _ => []
  end.

(** The date that a text writes, if any: its first reading, when that is a
    day the month has. *)
Definition date_written (s : str) : option datetime :=
  match date_readings s with
  | dt :: _ =>
      if (day dt <=? days_in_month (year dt) (month dt))%Z
      then Some dt else None
  | [] => None
  end.

(** A text that writes an integer: digits, with single underscores allowed
    between two digits, after an optional sign, white space allowed around
    the whole. *)
Definition is_underscore (c : ascii) : bool := Ascii.eqb c "_".

Definition is_sign (c : ascii) : bool := Ascii.eqb c "-" || Ascii.eqb c "+".

Definition without_sign (t : str) : str :=
  match t with
  | c :: r => if is_sign c then r else t
  | [] => []
  end.

Definition digits_with_underscores (u : str) : bool :=
  forallb (fun c => isdigit c || is_underscore c) u
  && begins_with isdigit u && ends_with isdigit u
  && forallb (fun xy => negb (is_underscore (fst xy) && is_underscore (snd xy)))
             (combine u (tl u)).

Definition valid_integer (s : str) : bool :=
  digits_with_underscores
    (without_sign (rstrip_by int_isspace (lstrip_by int_isspace s))).

(** The integer that a valid text writes: its digits read together, negated
    after a minus sign. *)
Definition integer_written (s : str) : Z :=
  ((if begins_with (fun c => Ascii.eqb c "-") (lstrip_by int_isspace s)
    then -1 else 1)
   * decimal_value (filter isdigit s))%Z.

(** What may follow a digit. *)
Definition tail_ok (r : str) : bool :=
  forallb (fun c => isdigit c || is_underscore c) r
  && negb (ends_with is_underscore r)
  && forallb (fun xy => negb (is_underscore (fst xy) && is_underscore (snd xy)))
             (combine r (tl r)).

(** A day of two digits, and a day written as a blank and a digit. *)
Definition two_digit_day (a b : ascii) : option Z :=
  between 1 31 (numeral2 a b).

Definition blank_day (a b : ascii) : option Z :=
  if Ascii.eqb a " " then between 1 31 (numeral1 b) else None.

(** The alternatives of the directives [%m] and [%d] of two characters, as
    the pattern lists them: at most one matches, and the number it reads. *)
Definition month_pair (a b : ascii) : option Z :=
  if Ascii.eqb a "1" && digit_in 0 2 b then Some (10 + digit_value b)%Z
  else if Ascii.eqb a "0" && digit_in 1 9 b then Some (digit_value b)
  else None.

Definition day_pair (a b : ascii) : option Z :=
  if Ascii.eqb a "3" && digit_in 0 1 b then Some (30 + digit_value b)%Z
  else if digit_in 1 2 a && isdigit b
       then Some (10 * digit_value a + digit_value b)%Z
  else if Ascii.eqb a "0" && digit_in 1 9 b then Some (digit_value b)
  else None.

Definition exclusive (l : list bool) : bool :=
  (List.length (filter (fun b => b) l) <=? 1)%nat.

Definition olist {A} (o : option Z) (r : A) : list (Z * A) :=
  match o with
  | Some v => [(v, r)]
  | None => []
  end.

Definition opt_eqb (x y : option Z) : bool :=
  match x, y with
  | Some u, Some v => Z.eqb u v
  | None, None => true
  | _, _ => false
  end.

Definition month_pair_check (a b : ascii) : bool :=
  exclusive [Ascii.eqb a "1" && digit_in 0 2 b;
             Ascii.eqb a "0" && digit_in 1 9 b]
  && opt_eqb (month_pair a b) (month_text [a; b]).

Definition day_pair_check (a b : ascii) : bool :=
  exclusive [Ascii.eqb a "3" && digit_in 0 1 b;
             digit_in 1 2 a && isdigit b;
             Ascii.eqb a "0" && digit_in 1 9 b]
  && opt_eqb (day_pair a b) (two_digit_day a b).

Definition blank_pair_check (a b : ascii) : bool :=
  opt_eqb (if Ascii.eqb a " " && digit_in 1 9 b
           then Some (digit_value b) else None)
          (blank_day a b).

(** [s] with every comma and every period taken out. *)
Definition delete_separators (s : str) : str :=
  filter (fun c => negb (Ascii.eqb c "," || Ascii.eqb c ".")) s.

(** [t] is [s] without the white space at its two ends. *)
Definition trimmed (t s : str) : Prop :=
  exists pre post,
    s = pre ++ t ++ post /\
    forallb isspace pre = true /\ forallb isspace post = true /\
    begins_with isspace t = false /\ ends_with isspace t = false.

(** [t] is [s] without the zeros at its front. *)
Definition without_leading_zeros (t s : str) : Prop :=
  exists zeros,
    s = zeros ++ t /\
    forallb (fun c => Ascii.eqb c "0") zeros = true /\
    begins_with (fun c => Ascii.eqb c "0") t = false.

(** The sample Transaction line without the blanks at its end: a first line
    that stops inside the reference columns. *)
Definition short_transaction : str := rstrip_by isspace sample_transaction.

(** The two suppression markers that are plain words. *)
Definition SERVICE_FEE := py "PALVELUMAKSU".
Definition SELF_SERVICE := py "ITSEPALVELU".

(** The three alternatives of [NOT_INTERESTING_MATCHER]. *)
Definition markers : Re.regex :=
  Re.Alt (Re.word SERVICE_FEE)
    (Re.Alt (Re.Seq (Re.word (py "S")) (Re.Seq (Re.Star Re.Any)
               (Re.Seq (Re.word (py "ST"))
                  (Re.Seq (Re.Star Re.Any) (Re.word (py "LIPAS"))))))
            (Re.word SELF_SERVICE)).

(** ** The regular expression matcher agrees with the meaning of patterns *)

Module ReFacts.
Import Re.

Section Matcher.
Variable fl : flags.

Lemma if_and_iff (b c : bool) :
  (if b then c else false) = true <-> b = true /\ c = true.
Proof. destruct b, c; intuition congruence. Qed.

Lemma if_or_iff (b c : bool) :
  (if b then true else c) = true <-> b = true \/ c = true.
Proof. destruct b, c; intuition congruence. Qed.

Lemma prev_after_app p a1 a2 :
  prev_after p (a1 ++ a2) = prev_after (prev_after p a1) a2.
Proof. unfold prev_after. apply fold_left_app. Qed.

Lemma star_spec step r :
  step_ok fl step r ->
  forall n p s k,
    List.length s <= n ->
    (star step n p s k = true <->
     exists a b, s = a ++ b /\ Matches fl (Star r) p a b
                 /\ k (prev_after p a) b = true).
Proof.
  intros Hstep. induction n as [|n IHn]; intros p s k Hlen.
  - destruct s; [|simpl in Hlen; lia]. simpl. split.
    + intros Hk. exists [], []. repeat split; [constructor | exact Hk].
    + intros (a & b & Hs & _ & Hk).
      symmetry in Hs. apply app_eq_nil in Hs as [-> ->]. exact Hk.
  - simpl. rewrite if_or_iff. split.
    + intros [H | H].
      * apply Hstep in H as (a1 & b1 & -> & Hm & Hk).
        apply if_and_iff in Hk as [Hlt Hk].
        apply Nat.ltb_lt in Hlt. rewrite length_app in *.
        apply IHn in Hk as (a2 & b & -> & Hm2 & Hk); [|lia].
        exists (a1 ++ a2), b. rewrite <- app_assoc, prev_after_app.
        repeat split; [|exact Hk].
        apply MStarCons; [|assumption|assumption].
        intros ->. simpl in Hlt. lia.
      * exists [], s. repeat split; [constructor | exact H].
    + intros (a & b & -> & Hm & Hk).
      inversion Hm; subst.
      * right. exact Hk.
      * left. apply Hstep. exists a1, (a2 ++ b).
        rewrite <- app_assoc. repeat split; [assumption|].
        apply if_and_iff. split.
        -- apply Nat.ltb_lt. rewrite !length_app.
           destruct a1; [congruence | simpl; lia].
        -- apply IHn.
           ++ rewrite <- app_assoc, length_app in Hlen.
              destruct a1; [congruence | simpl in Hlen; lia].
           ++ exists a2, b. rewrite <- prev_after_app. auto.
Qed.

Theorem matcher_spec r : step_ok fl (matcher fl r) r.
Proof.
  unfold step_ok.
  induction r as [| c | | | | r1 IH1 r2 IH2 | r1 IH1 r2 IH2 | r IH];
    intros p s k; simpl.
  - split.
    + intros Hk. exists [], s. repeat split; [constructor | exact Hk].
    + intros (a & b & -> & Hm & Hk). inversion Hm; subst. exact Hk.
  - destruct s as [|x s].
    + split; [discriminate|].
      intros (a & b & Hs & Hm & _). inversion Hm; subst. discriminate.
    + rewrite if_and_iff. split.
      * intros [Hc Hk]. exists [x], s. repeat split; [constructor; exact Hc | exact Hk].
      * intros (a & b & Hs & Hm & Hk). inversion Hm; subst.
        simpl in Hs. injection Hs as -> ->. auto.
  - destruct s as [|x s].
    + split; [discriminate|].
      intros (a & b & Hs & Hm & _). inversion Hm; subst. discriminate.
    + destruct (Ascii.eqb_spec x LF) as [->|Hx]; split.
      * discriminate.
      * intros (a & b & Hs & Hm & Hk). inversion Hm; subst.
        simpl in Hs. injection Hs as Hx _. congruence.
      * intros Hk. exists [x], s. repeat split; [|exact Hk].
        constructor. exact Hx.
      * intros (a & b & Hs & Hm & Hk). inversion Hm; subst.
        simpl in Hs. injection Hs as -> ->. exact Hk.
  - rewrite if_and_iff. split.
    + intros [Hb Hk]. exists [], s. repeat split; [constructor; exact Hb | exact Hk].
    + intros (a & b & -> & Hm & Hk). inversion Hm; subst. auto.
  - rewrite if_and_iff. split.
    + intros [Hb Hk]. exists [], s. repeat split; [constructor; exact Hb | exact Hk].
    + intros (a & b & -> & Hm & Hk). inversion Hm; subst. auto.
  - rewrite IH1. split.
    + intros (a1 & b1 & -> & Hm1 & Hk).
      apply IH2 in Hk as (a2 & b & -> & Hm2 & Hk).
      exists (a1 ++ a2), b. rewrite <- app_assoc, prev_after_app.
      repeat split; [|exact Hk]. constructor; assumption.
    + intros (a & b & -> & Hm & Hk). inversion Hm; subst.
      exists a1, (a2 ++ b). rewrite <- app_assoc. repeat split; [assumption|].
      apply IH2. exists a2, b. rewrite <- prev_after_app. auto.
  - rewrite if_or_iff, IH1, IH2. split.
    + intros [(a & b & -> & Hm & Hk) | (a & b & -> & Hm & Hk)];
        exists a, b; repeat split; auto using MAltL, MAltR.
    + intros (a & b & -> & Hm & Hk). inversion Hm; subst;
        [left | right]; exists a, b; auto.
  - apply star_spec with (r := r); [exact IH | lia].
Qed.

Corollary re_match_spec r s :
  re_match fl r s = true <-> exists a b, s = a ++ b /\ Matches fl r None a b.
Proof.
  unfold re_match.
  destruct (matcher_spec r None s (fun _ _ => true)) as [Hto Hfrom]. split.
  - intros H. apply Hto in H as (a & b & ? & ? & _). eauto.
  - intros (a & b & ? & ?). apply Hfrom. eauto.
Qed.

End Matcher.
End ReFacts.

(** ** Inversion and construction lemmas for the patterns of the program *)

Module PatternFacts.
Import Re.

Section Patterns.
Variable fl : flags.

Lemma seq_inv r1 r2 p a b :
  Matches fl (Seq r1 r2) p a b ->
  exists a1 a2, a = a1 ++ a2 /\ Matches fl r1 p a1 (a2 ++ b)
                /\ Matches fl r2 (prev_after p a1) a2 b.
Proof. intros H. inversion H; subst. eauto. Qed.

Lemma alt_inv r1 r2 p a b :
  Matches fl (Alt r1 r2) p a b -> Matches fl r1 p a b \/ Matches fl r2 p a b.
Proof. intros H. inversion H; subst; auto. Qed.

Lemma any_inv p a b : Matches fl Any p a b -> exists x, a = [x] /\ x <> LF.
Proof. intros H. inversion H; subst. eauto. Qed.

Lemma bol_inv p a b : Matches fl Bol p a b -> a = [].
Proof. intros H. inversion H; subst. reflexivity. Qed.

Lemma eol_inv p a b : Matches fl Eol p a b -> a = [] /\ at_eol fl b = true.
Proof. intros H. inversion H; subst. auto. Qed.

(** A literal word matches the texts that agree with it character by
    character. *)
Lemma word_inv w : forall p a b,
  Matches fl (word w) p a b ->
  Forall2 (fun c x => chr_matches fl c x = true) w a.
Proof.
  induction w as [|c w IH]; intros p a b H; simpl in H.
  - inversion H; subst. constructor.
  - apply seq_inv in H as (a1 & a2 & -> & H1 & H2).
    inversion H1; subst. simpl. constructor; eauto.
Qed.

Lemma word_intro w : forall p a b,
  Forall2 (fun c x => chr_matches fl c x = true) w a ->
  Matches fl (word w) p a b.
Proof.
  induction w as [|c w IH]; intros p a b H; inversion H; subst; simpl.
  - constructor.
  - match goal with
    | |- Matches _ _ _ (?x :: ?l) _ => change (x :: l) with ([x] ++ l)
    end.
    constructor; [constructor; assumption | apply IH; assumption].
Qed.

(** [.*] matches the texts without a newline. *)
Lemma star_any_inv p a b :
  Matches fl (Star Any) p a b -> ~ In LF a.
Proof.
  intros H. remember (Star Any) as r eqn:Hr.
  induction H; try discriminate.
  - intros [].
  - injection Hr as ->. apply any_inv in H0 as (x & -> & Hx).
    intros [Hin | Hin]; [congruence | exact (IHMatches2 eq_refl Hin)].
Qed.

Lemma star_any_intro a : forall p b,
  ~ In LF a -> Matches fl (Star Any) p a b.
Proof.
  induction a as [|x a IH]; intros p b H.
  - constructor.
  - change (x :: a) with ([x] ++ a). apply MStarCons.
    + discriminate.
    + constructor. intros ->. apply H. left. reflexivity.
    + apply IH. intros Hin. apply H. right. exact Hin.
Qed.

End Patterns.

Lemma chr_matches_cs fl c x :
  IGNORECASE fl = false -> chr_matches fl c x = true -> x = c.
Proof. unfold chr_matches. intros ->. apply Ascii.eqb_eq. Qed.

Lemma forall2_cs fl w a :
  IGNORECASE fl = false ->
  (Forall2 (fun c x => chr_matches fl c x = true) w a <-> a = w).
Proof.
  intros Hfl. split.
  - induction 1 as [|c x w a Hc _ IH]; [reflexivity|].
    apply chr_matches_cs in Hc; [congruence | exact Hfl].
  - intros ->. induction w; constructor; auto.
    unfold chr_matches. rewrite Hfl. apply Ascii.eqb_refl.
Qed.

Lemma forall2_ci fl w a :
  IGNORECASE fl = true ->
  (Forall2 (fun c x => chr_matches fl c x = true) w a <-> eq_ci a w).
Proof.
  intros Hfl. unfold eq_ci. split.
  - induction 1 as [|c x w a Hc _ IH]; [reflexivity|].
    unfold chr_matches in Hc. rewrite Hfl in Hc. apply Ascii.eqb_eq in Hc.
    simpl. congruence.
  - revert a. induction w as [|c w IH]; intros [|x a] H; try discriminate.
    + constructor.
    + simpl in H. injection H as Hx Ha. constructor; [|auto].
      unfold chr_matches. rewrite Hfl, Hx. apply Ascii.eqb_refl.
Qed.

End PatternFacts.

(** ** Facts on strings *)

Section StringFacts.

Lemma startswith_iff s p : startswith s p = true <-> exists r, s = p ++ r.
Proof.
  revert s. induction p as [|c p IH]; intros s; simpl.
  - split; [intros _; exists s; reflexivity | reflexivity].
  - destruct s as [|d s].
    + split; [discriminate | intros (r & H); discriminate].
    + rewrite andb_true_iff, IH. split.
      * intros [Hd (r & ->)]. apply Ascii.eqb_eq in Hd as ->. eauto.
      * intros (r & H). injection H as -> ->. split; [apply Ascii.eqb_refl | eauto].
Qed.

Lemma is_infix_iff x y : is_infix x y = true <-> exists a b, y = a ++ x ++ b.
Proof.
  induction y as [|c y IH]; simpl; rewrite orb_true_iff, startswith_iff.
  - split.
    + intros [(r & H) | H]; [|discriminate]. exists [], r. exact H.
    + intros (a & b & H). left.
      symmetry in H. apply app_eq_nil in H as [-> H].
      apply app_eq_nil in H as [-> ->]. exists []. reflexivity.
  - rewrite IH. split.
    + intros [(r & H) | (a & b & ->)].
      * exists [], r. exact H.
      * exists (c :: a), b. reflexivity.
    + intros ([|d a] & b & H).
      * left. exists b. exact H.
      * right. injection H as -> ->. eauto.
Qed.

Lemma contains_ci_iff w L :
  contains_ci w L = true <-> exists a x b, L = a ++ x ++ b /\ eq_ci x w.
Proof.
  unfold contains_ci, eq_ci. rewrite is_infix_iff. split.
  - intros (a' & b' & H).
    apply map_eq_app in H as (a & r & -> & <- & H).
    apply map_eq_app in H as (x & b & -> & H & <-).
    exists a, x, b. auto.
  - intros (a & x & b & -> & H). exists (map lower a), (map lower b).
    rewrite !map_app, H. reflexivity.
Qed.

Lemma in_prefixes x : forall y r, y = x ++ r -> In x (prefixes y).
Proof.
  induction x as [|c x IH]; intros y r ->.
  - destruct r; simpl; auto.
  - simpl. right. apply in_map. eapply IH. reflexivity.
Qed.

Lemma in_infixes x y : is_infix x y = true -> In x (infixes y).
Proof.
  induction y as [|c y IH]; intros H; simpl in H; apply orb_true_iff in H;
    rewrite startswith_iff in H; cbn [infixes]; apply in_or_app.
  - destruct H as [(r & H) | H]; [|discriminate].
    left. eapply in_prefixes. exact H.
  - destruct H as [(r & H) | H].
    + left. eapply in_prefixes. exact H.
    + right. auto.
Qed.

Lemma is_line_no_LF L : is_line L -> ~ In LF L.
Proof.
  unfold is_line. rewrite Forall_forall. intros H Hin.
  apply H in Hin. discriminate.
Qed.

Lemma is_line_app a b : is_line (a ++ b) <-> is_line a /\ is_line b.
Proof. apply Forall_app. Qed.

End StringFacts.

(** ** The record classifier *)

Module ClassifierFacts.
Import Re PatternFacts ReFacts.

Ltac invert_pattern :=
  repeat match goal with
    | H : Matches _ (word _) _ _ _ |- _ => apply word_inv in H
    | H : Matches _ (Star Any) _ _ _ |- _ => apply star_any_inv in H
    | H : Matches _ (Seq _ _) _ ?a _ |- _ =>
        let a1 := fresh "u" in
        let a2 := fresh "v" in
        let H1 := fresh "M" in
        let H2 := fresh "M" in
        apply seq_inv in H as (a1 & a2 & ? & H1 & H2); subst a
    | H : Matches _ Bol _ ?a _ |- _ => apply bol_inv in H; subst a
    | H : Matches _ Eol _ ?a _ |- _ =>
        let E := fresh "E" in apply eol_inv in H as [? E]; subst a
    | H : Matches _ Any _ ?a _ |- _ =>
        let x := fresh "x" in
        let E := fresh "E" in
        apply any_inv in H as (x & ? & E); subst a
    end.

Lemma seq_intro fl r1 r2 p a a1 a2 b :
  a = a1 ++ a2 ->
  Matches fl r1 p a1 (a2 ++ b) ->
  Matches fl r2 (prev_after p a1) a2 b ->
  Matches fl (Seq r1 r2) p a b.
Proof. intros ->. apply MSeq. Qed.

Lemma description_shape L :
  is_description L = true <->
  exists c1 c2 c3 a b,
    L = py "T11" ++ [c1; c2; c3] ++ py "00" ++ a ++ b /\
    c1 <> LF /\ c2 <> LF /\ c3 <> LF /\ ~ In LF a /\
    at_eol DESCRIPTION_FLAGS b = true.
Proof.
  unfold is_description. rewrite re_match_spec. split.
  - intros (a & b & -> & H). unfold DESCRIPTION_MATCHER in H.
    invert_pattern.
    repeat match goal with
      | M : Forall2 _ (py _) ?u |- _ =>
          apply forall2_cs in M; [subst u | reflexivity]
      end.
    match goal with
    | |- context [[?c1] ++ [?c2] ++ [?c3] ++ _ ++ ?a ++ []] =>
        exists c1, c2, c3, a, b
    end.
    rewrite app_nil_r. simpl. auto 10.
  - intros (c1 & c2 & c3 & a & b & -> & H1 & H2 & H3 & Ha & Hb).
    exists (py "T11" ++ [c1; c2; c3] ++ py "00" ++ a), b. split.
    { rewrite <- !app_assoc. reflexivity. }
    unfold DESCRIPTION_MATCHER.
    apply seq_intro with (a1 := []) (a2 := py "T11" ++ [c1; c2; c3] ++ py "00" ++ a);
      [reflexivity | constructor; reflexivity |].
    apply seq_intro with (a1 := py "T11") (a2 := [c1; c2; c3] ++ py "00" ++ a);
      [reflexivity | apply word_intro, forall2_cs; reflexivity |].
    apply seq_intro with (a1 := [c1]) (a2 := [c2; c3] ++ py "00" ++ a);
      [reflexivity | constructor; assumption |].
    apply seq_intro with (a1 := [c2]) (a2 := [c3] ++ py "00" ++ a);
      [reflexivity | constructor; assumption |].
    apply seq_intro with (a1 := [c3]) (a2 := py "00" ++ a);
      [reflexivity | constructor; assumption |].
    apply seq_intro with (a1 := py "00") (a2 := a);
      [reflexivity | apply word_intro, forall2_cs; reflexivity |].
    apply seq_intro with (a1 := a) (a2 := []);
      [symmetry; apply app_nil_r | apply star_any_intro; assumption |].
    constructor. assumption.
Qed.

Lemma at_eol_line fl b : ~ In LF b -> at_eol fl b = true -> b = [].
Proof.
  destruct b as [|c b]; [reflexivity|]. simpl. intros Hn H.
  apply andb_true_iff in H as [H _]. apply Ascii.eqb_eq in H.
  exfalso. apply Hn. left. exact H.
Qed.

Lemma description_of_line L :
  is_line L ->
  (is_description L = true <->
   exists c1 c2 c3 rest, L = py "T11" ++ [c1; c2; c3] ++ py "00" ++ rest).
Proof.
  intros HL. apply is_line_no_LF in HL. rewrite description_shape. split.
  - intros (c1 & c2 & c3 & a & b & -> & _). eauto.
  - intros (c1 & c2 & c3 & rest & ->).
    exists c1, c2, c3, rest, []. rewrite app_nil_r.
    repeat split; try reflexivity; intros E; apply HL; subst; simpl; auto 10.
Qed.

Lemma transaction_prefix L :
  is_transaction L = true <-> firstn 3 L = py "T10".
Proof.
  unfold is_transaction, TRANSACTION. rewrite startswith_iff. split.
  - intros (r & ->). reflexivity.
  - intros H. exists (skipn 3 L). rewrite <- H. symmetry. apply firstn_skipn.
Qed.

Lemma transaction_not_description L :
  is_transaction L = true -> is_description L = false.
Proof.
  intros Ht. apply transaction_prefix in Ht.
  destruct (is_description L) eqn:Hd; [|reflexivity].
  apply description_shape in Hd as (c1 & c2 & c3 & a & b & -> & _).
  discriminate.
Qed.

End ClassifierFacts.

(** ** The suppression pattern *)

Module SuppressionFacts.
Import Re PatternFacts ReFacts ClassifierFacts.

Lemma not_interesting_markers L :
  is_interesting L = false <->
  exists a kw b rest,
    L = a ++ kw ++ b ++ rest /\ ~ In LF a /\ ~ In LF b /\
    at_eol NOT_INTERESTING_FLAGS rest = true /\
    Matches NOT_INTERESTING_FLAGS markers (prev_after None a) kw (b ++ rest).
Proof.
  unfold is_interesting. rewrite negb_false_iff, re_match_spec. split.
  - intros (a & b & -> & H). unfold NOT_INTERESTING_MATCHER in H.
    invert_pattern.
    match goal with
    | M : Matches _ (Alt _ _) (prev_after _ ?a) ?kw ((?b ++ []) ++ ?rest) |- _ =>
        exists a, kw, b, rest; rewrite app_nil_r in M
    end.
    rewrite app_nil_r. simpl. rewrite <- !app_assoc. auto.
  - intros (a & kw & b & rest & -> & Ha & Hb & He & Hm).
    exists (a ++ kw ++ b), rest. split.
    { rewrite <- !app_assoc. reflexivity. }
    unfold NOT_INTERESTING_MATCHER.
    apply seq_intro with (a1 := []) (a2 := a ++ kw ++ b);
      [reflexivity | constructor; reflexivity |].
    apply seq_intro with (a1 := a) (a2 := kw ++ b);
      [reflexivity | apply star_any_intro; assumption |].
    apply seq_intro with (a1 := kw) (a2 := b); [reflexivity | exact Hm |].
    apply seq_intro with (a1 := b) (a2 := []);
      [symmetry; apply app_nil_r | apply star_any_intro; assumption |].
    constructor. assumption.
Qed.

Lemma markers_shape p kw rest :
  Matches NOT_INTERESTING_FLAGS markers p kw rest <->
  eq_ci kw SERVICE_FEE \/
  (exists x b y c z,
      kw = x ++ b ++ y ++ c ++ z /\ ~ In LF b /\ ~ In LF c /\
      eq_ci x (py "S") /\ eq_ci y (py "ST") /\ eq_ci z (py "LIPAS")) \/
  eq_ci kw SELF_SERVICE.
Proof.
  unfold markers. split.
  - intros H. apply alt_inv in H as [H | H]; [|apply alt_inv in H as [H | H]];
      invert_pattern;
      repeat match goal with
        | M : Forall2 _ _ _ |- _ => apply forall2_ci in M; [|reflexivity]
        end.
    + left. assumption.
    + right. left.
      match goal with
      | |- context [?x ++ ?b ++ ?y ++ ?c ++ ?z] => exists x, b, y, c, z
      end.
      auto 10.
    + right. right. assumption.
  - intros [H | [(x & b & y & c & z & -> & Hb & Hc & Hx & Hy & Hz) | H]].
    + apply MAltL, word_intro, forall2_ci; [reflexivity | exact H].
    + apply MAltR, MAltL.
      apply MSeq; [apply word_intro, forall2_ci; [reflexivity | exact Hx]|].
      apply MSeq; [apply star_any_intro; exact Hb|].
      apply MSeq; [apply word_intro, forall2_ci; [reflexivity | exact Hy]|].
      apply MSeq; [apply star_any_intro; exact Hc|].
      apply word_intro, forall2_ci; [reflexivity | exact Hz].
    + apply MAltR, MAltR, word_intro, forall2_ci; [reflexivity | exact H].
Qed.

Lemma not_in_app (c : ascii) a b : ~ In c (a ++ b) <-> ~ In c a /\ ~ In c b.
Proof. rewrite in_app_iff. tauto. Qed.

Lemma not_interesting_of_line L :
  is_line L ->
  (is_interesting L = false <->
   contains_ci SERVICE_FEE L = true \/
   contains_in_order_ci (py "S") (py "ST") (py "LIPAS") L \/
   contains_ci SELF_SERVICE L = true).
Proof.
  intros HL. apply is_line_no_LF in HL.
  rewrite not_interesting_markers, !contains_ci_iff.
  unfold contains_in_order_ci. split.
  - intros (a & kw & b & rest & -> & _ & _ & _ & Hm).
    apply markers_shape in Hm
      as [H | [(x & b' & y & c & z & -> & _ & _ & Hx & Hy & Hz) | H]].
    + left. eauto.
    + right. left. exists a, x, b', y, c, z, (b ++ rest).
      rewrite <- !app_assoc. auto.
    + right. right. eauto.
  - intros [(a & x & b & -> & H)
           | [(a & x & b & y & c & z & d & -> & Hx & Hy & Hz)
             | (a & x & b & -> & H)]].
    + exists a, x, b, []. rewrite !app_nil_r.
      rewrite !not_in_app in HL. repeat split; try tauto.
      apply markers_shape. auto.
    + exists a, (x ++ b ++ y ++ c ++ z), d, []. rewrite !app_nil_r.
      rewrite !not_in_app in HL. rewrite <- !app_assoc.
      repeat split; try tauto.
      apply markers_shape. right. left. exists x, b, y, c, z.
      repeat split; tauto.
    + exists a, x, b, []. rewrite !app_nil_r.
      rewrite !not_in_app in HL. repeat split; try tauto.
      apply markers_shape. auto.
Qed.

End SuppressionFacts.

(** ** The transaction grouper *)

Module GrouperFacts.
Import ClassifierFacts.

Lemma take_descriptions_run ds : forall t x rest,
  Forall (fun l => is_description l = true) ds ->
  is_description x = false ->
  take_descriptions t (ds ++ x :: rest) = Ok (t ++ ds).
Proof.
  induction ds as [|d ds IH]; intros t x rest Hds Hx; simpl.
  - rewrite Hx, app_nil_r. reflexivity.
  - inversion Hds as [|? ? Hd Hds']; subst. rewrite Hd.
    rewrite IH by assumption. rewrite <- app_assoc. reflexivity.
Qed.

Lemma take_descriptions_eof ds : forall t,
  Forall (fun l => is_description l = true) ds ->
  take_descriptions t ds = Raise IndexError.
Proof.
  induction ds as [|d ds IH]; intros t Hds; simpl.
  - reflexivity.
  - inversion Hds as [|? ? Hd Hds']; subst. rewrite Hd. auto.
Qed.

Lemma take_descriptions_raises following : forall t e,
  take_descriptions t following = Raise e -> e = IndexError.
Proof.
  induction following as [|l following IH]; intros t e; simpl.
  - congruence.
  - destruct (is_description l); [apply IH | discriminate].
Qed.

(** What the inner loop returns when it returns: the lines given, then
    the description lines that follow without a gap. *)
Lemma take_descriptions_ok following : forall t t',
  take_descriptions t following = Ok t' ->
  t' = t ++ take_while is_description following.
Proof.
  induction following as [|l following IH]; intros t t'; simpl.
  - discriminate.
  - destruct (is_description l).
    + intros H. apply IH in H. rewrite <- app_assoc in H. exact H.
    + intros H. injection H as <-. symmetry. apply app_nil_r.
Qed.

Lemma scan_raises contents : forall acc e,
  scan acc contents = Raise e -> e = IndexError.
Proof.
  induction contents as [|v following IH]; intros acc e; simpl.
  - discriminate.
  - fold (starts_group v). destruct (starts_group v); [|apply IH].
    destruct (take_descriptions [v] following) as [t|e'] eqn:Ht; simpl.
    + apply IH.
    + intros H. injection H as <-. eapply take_descriptions_raises, Ht.
Qed.

(** The outer loop steps over lines that start no group. *)
Lemma scan_skip ls : forall acc rest,
  Forall (fun l => starts_group l = false) ls ->
  scan acc (ls ++ rest) = scan acc rest.
Proof.
  induction ls as [|l ls IH]; intros acc rest Hls; simpl.
  - reflexivity.
  - inversion Hls as [|? ? Hl Hls']; subst.
    fold (starts_group l). rewrite Hl. auto.
Qed.

Lemma description_starts_no_group l :
  is_description l = true -> starts_group l = false.
Proof.
  intros Hd. unfold starts_group.
  destruct (is_transaction l) eqn:Ht; [|reflexivity].
  apply transaction_not_description in Ht. congruence.
Qed.

(** One group: the outer loop, going on from the line after [v], passes
    the description lines and resumes at the line that ended the group. *)
Lemma scan_group acc v ds x rest :
  starts_group v = true ->
  Forall (fun l => is_description l = true) ds ->
  is_description x = false ->
  scan acc (v :: ds ++ x :: rest) = scan (acc ++ [v :: ds]) (x :: rest).
Proof.
  intros Hv Hds Hx. cbn [scan]. fold (starts_group v). rewrite Hv.
  rewrite take_descriptions_run by assumption. cbn [bind app].
  apply scan_skip.
  eapply Forall_impl; [|exact Hds]. apply description_starts_no_group.
Qed.

(** An interesting Transaction line with only description lines up to the
    end of the input makes the scan raise. *)
Lemma scan_eof pre : forall acc v ds,
  starts_group v = true ->
  Forall (fun l => is_description l = true) ds ->
  scan acc (pre ++ v :: ds) = Raise IndexError.
Proof.
  induction pre as [|l pre IH]; intros acc v ds Hv Hds; simpl.
  - fold (starts_group v). rewrite Hv.
    rewrite take_descriptions_eof by assumption. reflexivity.
  - destruct (is_transaction l && is_interesting l); [|auto].
    destruct (take_descriptions [l] (pre ++ v :: ds)) as [t|e] eqn:Ht; simpl.
    + auto.
    + apply take_descriptions_raises in Ht. congruence.
Qed.

(** What the scan returns when it returns. *)
Lemma scan_ok contents : forall acc gs,
  scan acc contents = Ok gs -> gs = acc ++ groups_of contents.
Proof.
  induction contents as [|v following IH]; intros acc gs; simpl.
  - intros H. injection H as <-. symmetry. apply app_nil_r.
  - fold (starts_group v). destruct (starts_group v); [|apply IH].
    destruct (take_descriptions [v] following) as [t|e] eqn:Ht; simpl;
      [|discriminate].
    intros H. apply IH in H. apply take_descriptions_ok in Ht.
    subst. rewrite <- app_assoc. reflexivity.
Qed.

Lemma groups_of_length contents :
  List.length (groups_of contents) = List.length (filter starts_group contents).
Proof.
  induction contents as [|v following IH]; simpl; [reflexivity|].
  destruct (starts_group v); simpl; congruence.
Qed.

Lemma groups_of_nonempty contents :
  Forall (fun g => g <> []) (groups_of contents).
Proof.
  induction contents as [|v following IH]; simpl; [constructor|].
  destruct (starts_group v); [constructor; [discriminate|]|]; assumption.
Qed.

Lemma no_group_no_transactions contents :
  filter starts_group contents = [] -> group_transactions contents = Ok [].
Proof.
  intros H. unfold group_transactions.
  rewrite <- (app_nil_r contents). rewrite scan_skip; [reflexivity|].
  apply Forall_forall. intros l Hl.
  destruct (starts_group l) eqn:E; [|reflexivity].
  assert (Hin : In l (filter starts_group contents))
    by (apply filter_In; auto).
  rewrite H in Hin. destruct Hin.
Qed.

End GrouperFacts.

(** ** Lines of the decoded input *)

Section Lines.

Lemma splitlines_from_lines n : forall s cur,
  List.length s <= n ->
  Forall (fun c => is_linebreak c = false) cur ->
  Forall is_line (splitlines_from cur s).
Proof.
  induction n as [|n IH]; intros s cur Hlen Hcur.
  - destruct s; [|simpl in Hlen; lia]. simpl.
    destruct cur; repeat constructor. apply Forall_rev. exact Hcur.
  - destruct s as [|c rest]; simpl.
    + destruct cur; repeat constructor. apply Forall_rev. exact Hcur.
    + simpl in Hlen. destruct (is_linebreak c) eqn:Hc.
      * constructor; [apply Forall_rev; exact Hcur|].
        destruct rest as [|d rest']; [constructor|].
        simpl in Hlen.
        destruct ((ord c =? 13) && (ord d =? 10));
          apply IH; try constructor; simpl; lia.
      * apply IH; [lia|]. constructor; assumption.
Qed.

(** Every line the program scans is free of line boundaries. *)
Lemma decoded_lines_are_lines filecontents :
  Forall is_line (decoded_lines filecontents).
Proof.
  unfold decoded_lines, splitlines.
  eapply splitlines_from_lines; [reflexivity | constructor].
Qed.

End Lines.

(** ** The payment builder *)

Module PaymentFacts.

Lemma slice_at (a b : nat) (pre x post : str) :
  List.length pre = a -> List.length x = b - a ->
  slice a b (pre ++ x ++ post) = x.
Proof.
  intros Ha Hx. unfold slice.
  rewrite skipn_app, Ha, Nat.sub_diag, <- Ha, skipn_all. simpl.
  rewrite Ha, <- Hx, firstn_app, Nat.sub_diag, firstn_all. simpl.
  apply app_nil_r.
Qed.

(** The guard of [parse_message] changes nothing: a line of at most
    eight characters has nothing from offset 8 on. *)
Lemma parse_message_drop msg_string :
  parse_message msg_string = strip (slice_from 8 msg_string).
Proof.
  unfold parse_message, slice_from.
  destruct (Nat.leb_spec (List.length msg_string) 8) as [H|H]; [|reflexivity].
  rewrite skipn_all2 by exact H. reflexivity.
Qed.

Lemma parse_from_list_eq row rest :
  parse_from_list (row :: rest) =
  match strptime_ymd (strip (slice 42 48 row)) with
  | Ok dt =>
      match int (Re.sub_class_empty is_comma_or_period
                   (strip (slice 87 106 row))) with
      | Ok amt =>
          Ok {| p_datetime := dt; amount := amt;
                payer := strip (slice 108 143 row);
                reference := lstrip_by is_zero_char (strip (slice 160 179 row));
                message := message_of (row :: rest) |}
      | Raise e => Raise e
      end
  | Raise e => Raise e
  end.
Proof. reflexivity. Qed.

Lemma strptime_raises s e : strptime_ymd s = Raise e -> e = ValueError.
Proof.
  unfold strptime_ymd.
  repeat match goal with
    | |- context [match ?x with _ => _ end] => destruct x
    end; congruence.
Qed.

Lemma int_raises s e : int s = Raise e -> e = ValueError.
Proof.
  unfold int.
  repeat match goal with
    | |- context [match ?x with _ => _ end] => destruct x
    end; congruence.
Qed.

Lemma parse_from_list_raises row rest e :
  parse_from_list (row :: rest) = Raise e -> e = ValueError.
Proof.
  rewrite parse_from_list_eq.
  destruct (strptime_ymd _) as [dt|e1] eqn:Hd.
  - destruct (int _) as [amt|e2] eqn:Ha; [discriminate|].
    intros H. injection H as <-. eapply int_raises, Ha.
  - intros H. injection H as <-. eapply strptime_raises, Hd.
Qed.

Lemma lstrip_all p s : forallb p s = true -> lstrip_by p s = [].
Proof.
  induction s as [|c s IH]; simpl; [reflexivity|].
  intros H. apply andb_true_iff in H as [-> H]. auto.
Qed.

Lemma write_rows_spec transactions : forall written,
  write_rows written transactions =
  (written ++ map PaymentRow (payments_built transactions),
   first_failure transactions).
Proof.
  induction transactions as [|t rest IH]; intros written; simpl.
  - rewrite app_nil_r. reflexivity.
  - destruct (parse_from_list t) as [p|e].
    + rewrite IH, <- app_assoc. reflexivity.
    + rewrite app_nil_r. reflexivity.
Qed.

Lemma payments_built_all transactions :
  first_failure transactions = None ->
  List.length (payments_built transactions) = List.length transactions.
Proof.
  induction transactions as [|t rest IH]; simpl; [reflexivity|].
  destruct (parse_from_list t); [|discriminate].
  intros H. simpl. auto.
Qed.

Lemma first_failure_value transactions :
  Forall (fun g => g <> []) transactions ->
  Exists (fun t => exists e, parse_from_list t = Raise e) transactions ->
  first_failure transactions = Some ValueError.
Proof.
  induction 1 as [|t rest Ht _ IH]; intros Hex; simpl.
  - inversion Hex.
  - destruct (parse_from_list t) as [p|e] eqn:Hp.
    + apply IH. inversion Hex as [? ? (e & He)|]; subst; [congruence|assumption].
    + destruct t as [|row more]; [congruence|].
      apply parse_from_list_raises in Hp. congruence.
Qed.

End PaymentFacts.

(** ** The date and integer parsers *)

Module ParserFacts.

Lemma isdigit_cases c : isdigit c = true -> In c digits.
Proof.
  destruct c as [[] [] [] [] [] [] [] []]; vm_compute; intros H;
    try discriminate; auto 12.
Qed.

Ltac each_digit H :=
  apply isdigit_cases in H; unfold digits in H; simpl in H;
  repeat (destruct H as [<- | H]); [.. | destruct H].

Lemma month_two_digits m1 m2 r :
  isdigit m1 = true -> isdigit m2 = true ->
  let m := (10 * digit_value m1 + digit_value m2)%Z in
  ((1 <=? m) && (m <=? 12))%Z = true ->
  exists others, month_alternatives (m1 :: m2 :: r) = (m, r) :: others.
Proof.
  intros H1 H2. each_digit H1; each_digit H2; intros m Hm;
    try discriminate Hm; eexists; reflexivity.
Qed.

Lemma day_two_digits d1 d2 r :
  isdigit d1 = true -> isdigit d2 = true ->
  let d := (10 * digit_value d1 + digit_value d2)%Z in
  ((1 <=? d) && (d <=? 31))%Z = true ->
  exists others, day_alternatives (d1 :: d2 :: r) = (d, r) :: others.
Proof.
  intros H1 H2. each_digit H1; each_digit H2; intros d Hd;
    try discriminate Hd; eexists; reflexivity.
Qed.

Lemma days_in_month_le y m : (days_in_month y m <= 31)%Z.
Proof.
  unfold days_in_month.
  repeat match goal with
    | |- context [if ?b then _ else _] => destruct b
    end; lia.
Qed.

(** A well-formed YYMMDD date is read as the date it writes. *)
Lemma strptime_well_formed s :
  well_formed_yymmdd s = true -> strptime_ymd s = Ok (date_of_yymmdd s).
Proof.
  destruct s as [|y1 [|y2 [|m1 [|m2 [|d1 [|d2 [|? ?]]]]]]]; try discriminate.
  unfold well_formed_yymmdd. cbn [forallb].
  rewrite !andb_true_iff.
  intros [(Hy1 & Hy2 & Hm1 & Hm2 & Hd1 & Hd2 & _) [[[Hm Hm'] Hd] Hd']].
  unfold strptime_ymd. rewrite Hy1, Hy2. cbn [andb].
  destruct (@month_two_digits m1 m2 [d1; d2] Hm1 Hm2) as (om & ->).
  { cbv zeta. rewrite Hm, Hm'. reflexivity. }
  cbn [flat_map].
  destruct (@day_two_digits d1 d2 [] Hd1 Hd2) as (od & ->).
  { cbv zeta. rewrite Hd. cbn [andb]. apply Z.leb_le. apply Z.leb_le in Hd'.
    etransitivity; [exact Hd' | apply days_in_month_le]. }
  cbn [map app]. unfold full_year in Hd'. rewrite Hd'. reflexivity.
Qed.

End ParserFacts.

(** ** Messages *)

Section MessageFacts.

Lemma in_lstrip p c s : In c (lstrip_by p s) -> In c s.
Proof.
  induction s as [|x s IH]; simpl; [auto|].
  destruct (p x); auto.
Qed.

Lemma in_rstrip p c s : In c (rstrip_by p s) -> In c s.
Proof.
  unfold rstrip_by. intros H.
  apply in_rev in H. apply in_lstrip in H. apply in_rev. exact H.
Qed.

Lemma in_strip c s : In c (strip s) -> In c s.
Proof. unfold strip. intros H. apply in_rstrip, in_lstrip in H. exact H. Qed.

Lemma in_skipn (c : ascii) n s : In c (skipn n s) -> In c s.
Proof.
  intros H. rewrite <- (firstn_skipn n s). apply in_or_app. right. exact H.
Qed.

Lemma parse_message_no_LF line : is_line line -> ~ In LF (parse_message line).
Proof.
  intros HL Hin. apply is_line_no_LF in HL. apply HL.
  rewrite PaymentFacts.parse_message_drop in Hin.
  apply in_strip in Hin. eapply in_skipn, Hin.
Qed.

Lemma split_on_piece c piece : forall s,
  ~ In c piece -> split_on c (piece ++ c :: s) = piece :: split_on c s.
Proof.
  induction piece as [|x piece IH]; intros s Hn; simpl.
  - rewrite Ascii.eqb_refl. reflexivity.
  - destruct (Ascii.eqb_spec x c) as [->|_].
    + exfalso. apply Hn. left. reflexivity.
    + rewrite IH; [reflexivity|]. intros H. apply Hn. right. exact H.
Qed.

Lemma split_on_last c piece : ~ In c piece -> split_on c piece = [piece].
Proof.
  induction piece as [|x piece IH]; intros Hn; simpl; [reflexivity|].
  destruct (Ascii.eqb_spec x c) as [->|_].
  - exfalso. apply Hn. left. reflexivity.
  - rewrite IH; [reflexivity|]. intros H. apply Hn. right. exact H.
Qed.

(** Joining with a separator that no piece contains loses nothing. *)
Lemma split_on_join c pieces :
  pieces <> [] -> Forall (fun piece => ~ In c piece) pieces ->
  split_on c (join [c] pieces) = pieces.
Proof.
  induction pieces as [|piece pieces IH]; intros Hne Hall; [congruence|].
  inversion Hall as [|? ? Hp Hps]; subst.
  destruct pieces as [|piece' pieces].
  - simpl. apply split_on_last. exact Hp.
  - change (join [c] (piece :: piece' :: pieces))
      with (piece ++ c :: join [c] (piece' :: pieces)).
    rewrite split_on_piece by exact Hp.
    rewrite IH; [reflexivity | discriminate | exact Hps].
Qed.

End MessageFacts.

(** ** The whole run *)

Module MainFacts.
Import GrouperFacts PaymentFacts.

Lemma scan_acc contents : forall acc,
  scan acc contents = (gs <- scan [] contents ;; Ok (acc ++ gs)).
Proof.
  induction contents as [|v following IH]; intros acc; simpl.
  - rewrite app_nil_r. reflexivity.
  - destruct (is_transaction v && is_interesting v); [|apply IH].
    destruct (take_descriptions [v] following) as [t|e]; simpl; [|reflexivity].
    rewrite (IH (acc ++ [t])), (IH [t]).
    destruct (scan [] following) as [gs|e]; simpl; [|reflexivity].
    rewrite <- app_assoc. reflexivity.
Qed.

Lemma main_scan_raises filecontents e :
  group_transactions (decoded_lines filecontents) = Raise e ->
  main filecontents =
  {| output_file := None; stdout := []; raised := Some IndexError |}.
Proof.
  intros H. unfold main. fold (decoded_lines filecontents). rewrite H.
  apply scan_raises in H. subst. reflexivity.
Qed.

Lemma main_nothing_interesting filecontents :
  filter starts_group (decoded_lines filecontents) = [] ->
  main filecontents =
  {| output_file := None; stdout := [NoInterestingTransactions];
     raised := None |}.
Proof.
  intros H. unfold main. fold (decoded_lines filecontents).
  rewrite (no_group_no_transactions _ H). reflexivity.
Qed.

(** A completed scan that found groups: the file is opened, the header
    written, then one row per payment built. *)
Lemma main_writes filecontents transactions :
  group_transactions (decoded_lines filecontents) = Ok transactions ->
  transactions <> [] ->
  main filecontents =
  {| output_file :=
       Some (HeaderRow DICT_FIELDS :: map PaymentRow (payments_built transactions));
     stdout :=
       match first_failure transactions with
       | None => [WroteTransactions (List.length transactions)]
       | Some _ => []
       end;
     raised := first_failure transactions |}.
Proof.
  intros H Hne. unfold main. fold (decoded_lines filecontents). rewrite H.
  destruct transactions as [|t ts]; [congruence|].
  rewrite write_rows_spec.
  destruct (first_failure (t :: ts)); reflexivity.
Qed.

Lemma groups_found filecontents transactions :
  group_transactions (decoded_lines filecontents) = Ok transactions ->
  transactions = groups_of (decoded_lines filecontents).
Proof. intros H. apply scan_ok in H. exact H. Qed.

End MainFacts.

(** ** Checking concrete lines *)

Section Checks.

Lemma is_line_check L :
  forallb (fun c => negb (is_linebreak c)) L = true -> is_line L.
Proof.
  unfold is_line. rewrite forallb_forall, Forall_forall.
  intros H c Hc. apply H in Hc. apply negb_true_iff. exact Hc.
Qed.

Lemma all_descriptions_check ds :
  forallb is_description ds = true ->
  Forall (fun l => is_description l = true) ds.
Proof. rewrite forallb_forall, Forall_forall. auto. Qed.

End Checks.

(** * The properties of the specification *)

(** C1: an interesting Transaction line that is the last line of the
    decoded input, or that only description lines follow up to its end,
    should give a group and a graceful end of the scan.  The program
    instead reads one line past the end: the look-ahead raises IndexError,
    no group is emitted and the run ends without output. *)
Theorem lookahead_past_last_line_raises filecontents pre v ds :
  decoded_lines filecontents = pre ++ v :: ds ->
  starts_group v = true ->
  Forall (fun l => is_description l = true) ds ->
  group_transactions (decoded_lines filecontents) = Raise IndexError /\
  main filecontents =
  {| output_file := None; stdout := []; raised := Some IndexError |}.
Proof.
  intros Hc Hv Hds.
  assert (H : group_transactions (decoded_lines filecontents) = Raise IndexError).
  { rewrite Hc. apply GrouperFacts.scan_eof; assumption. }
  split; [exact H | eapply MainFacts.main_scan_raises, H].
Qed.

Lemma lookahead_past_last_line_raises_witness :
  group_transactions (decoded_lines sample_transaction) = Raise IndexError /\
  main sample_transaction =
  {| output_file := None; stdout := []; raised := Some IndexError |}.
Proof.
  apply (@lookahead_past_last_line_raises
           sample_transaction [] sample_transaction []).
  - vm_compute. reflexivity.
  - vm_compute. reflexivity.
  - constructor.
Defined.

(** C6: for every line L, [is_description L] holds exactly when L is "T11",
    then three arbitrary characters, then "00", then anything; and
    [is_transaction L] holds exactly when the first three characters of L
    are "T10". *)
Theorem classifier_patterns (L : str) :
  is_line L ->
  (is_description L = true <->
   exists c1 c2 c3 rest, L = py "T11" ++ [c1; c2; c3] ++ py "00" ++ rest) /\
  (is_transaction L = true <-> firstn 3 L = py "T10").
Proof.
  intros HL. split.
  - apply ClassifierFacts.description_of_line, HL.
  - apply ClassifierFacts.transaction_prefix.
Qed.

Lemma classifier_patterns_witness :
  is_line (py "T11 0100 INVOICE 42") /\
  is_description (py "T11 0100 INVOICE 42") = true /\
  is_transaction (py "T11 0100 INVOICE 42") = false.
Proof.
  assert (HL : is_line (py "T11 0100 INVOICE 42"))
    by (apply is_line_check; reflexivity).
  destruct (classifier_patterns HL) as [Hd Ht].
  split; [exact HL | split].
  - apply Hd. exists " "%char, "0"%char, "1"%char, (py " INVOICE 42").
    reflexivity.
  - apply not_true_is_false. intros E. apply Ht in E. discriminate E.
Defined.

(** C7: when no interesting transaction is found the program writes no
    file and prints the notice; otherwise the file should hold the header
    and one row per payment.  On an input whose only line is an interesting
    Transaction line the program does neither: the scan raises, no file is
    written and nothing is printed.  With one more line after it the same
    transaction is written. *)
Theorem lone_transaction_writes_nothing :
  filter starts_group (decoded_lines (sample_transaction ++ [LF]))
  = [sample_transaction] /\
  main (sample_transaction ++ [LF]) =
  {| output_file := None; stdout := []; raised := Some IndexError |} /\
  output_file (main (sample_transaction ++ [LF] ++ py "T40")) =
  Some [HeaderRow DICT_FIELDS;
        PaymentRow {| p_datetime := {| year := 2015; month := 4; day := 1 |};
                      amount := 1234; payer := py "JOHN DOE";
                      reference := py "123"; message := [] |}] /\
  main [] =
  {| output_file := None; stdout := [NoInterestingTransactions];
     raised := None |}.
Proof. repeat split; vm_compute; reflexivity. Qed.

(** C8: no line is both a Transaction line and a description line; so the
    outer loop, which goes on from the line after the one that started a
    group and meets the group's description lines again, starts no group
    at any of them and is at the line that ended the group with exactly
    that one group added. *)
Theorem description_lines_start_no_group :
  (forall L, is_transaction L = true -> is_description L = false) /\
  (forall acc v ds x rest,
      starts_group v = true ->
      Forall (fun l => is_description l = true) ds ->
      is_description x = false ->
      Forall (fun l => starts_group l = false) ds /\
      scan acc (v :: ds ++ x :: rest) = scan (acc ++ [v :: ds]) (x :: rest)).
Proof.
  split.
  - apply ClassifierFacts.transaction_not_description.
  - intros acc v ds x rest Hv Hds Hx. split.
    + eapply Forall_impl; [|exact Hds].
      apply GrouperFacts.description_starts_no_group.
    + apply GrouperFacts.scan_group; assumption.
Qed.

Lemma description_lines_start_no_group_witness :
  group_transactions
    [sample_transaction; description_line (py "  INVOICE 42");
     description_line (py "  THANK YOU"); py "T40"]
  = Ok [[sample_transaction; description_line (py "  INVOICE 42");
         description_line (py "  THANK YOU")]].
Proof.
  destruct description_lines_start_no_group as [_ H].
  unfold group_transactions.
  destruct (H [] sample_transaction
              [description_line (py "  INVOICE 42");
               description_line (py "  THANK YOU")]
              (py "T40") []) as [_ E].
  - vm_compute. reflexivity.
  - apply all_descriptions_check. vm_compute. reflexivity.
  - vm_compute. reflexivity.
  - etransitivity; [exact E | vm_compute; reflexivity].
Defined.

(** C2 (as amended): a line is not interesting exactly when it contains,
    letter case ignored, the word PALVELUMAKSU, or the word ITSEPALVELU, or
    an S, later ST, later LIPAS, with any text between the three. *)
Theorem not_interesting_iff_marker (L : str) :
  is_line L ->
  (is_interesting L = false <->
   contains_ci SERVICE_FEE L = true \/
   contains_in_order_ci (py "S") (py "ST") (py "LIPAS") L \/
   contains_ci SELF_SERVICE L = true).
Proof. apply SuppressionFacts.not_interesting_of_line. Qed.

Lemma not_interesting_iff_marker_witness :
  is_line (py "T10 Suomen Startti Oy, lipasto") /\
  is_interesting (py "T10 Suomen Startti Oy, lipasto") = false /\
  contains_ci SERVICE_FEE (py "T10 Suomen Startti Oy, lipasto") = false /\
  contains_ci SELF_SERVICE (py "T10 Suomen Startti Oy, lipasto") = false.
Proof.
  assert (HL : is_line (py "T10 Suomen Startti Oy, lipasto"))
    by (apply is_line_check; reflexivity).
  split; [exact HL | split; [|split; reflexivity]].
  apply (not_interesting_iff_marker HL). right. left.
  exists (py "T10 "), (py "S"), (py "uomen "), (py "St"), (py "artti Oy, "),
    (py "lipas"), (py "to").
  repeat split.
Defined.

(** C2, as stated, fails: the middle marker is no fixed fragment.  Two
    suppressed lines contain neither of the two plain words, and any text
    that occurs in both occurs in a third line, which is not suppressed. *)
Lemma no_fixed_middle_fragment :
  is_interesting (py "SaSTLIPAS") = false /\
  is_interesting (py "SbSTLIPAS") = false /\
  is_interesting (py "STLIPAS") = true /\
  ((exists F,
       forall L, is_line L ->
                 (is_interesting L = false <->
                  contains_ci SERVICE_FEE L = true \/
                  contains_ci F L = true \/
                  contains_ci SELF_SERVICE L = true))
   <-> False).
Proof.
  repeat split; try reflexivity; [|intros []].
  intros (F & H).
  assert (La : is_line (py "SaSTLIPAS")) by (apply is_line_check; reflexivity).
  assert (Lb : is_line (py "SbSTLIPAS")) by (apply is_line_check; reflexivity).
  assert (Lc : is_line (py "STLIPAS")) by (apply is_line_check; reflexivity).
  assert (Ha : contains_ci F (py "SaSTLIPAS") = true).
  { destruct (proj1 (H _ La) eq_refl)
      as [C | [C | C]]; [discriminate C | exact C | discriminate C]. }
  assert (Hb : contains_ci F (py "SbSTLIPAS") = true).
  { destruct (proj1 (H _ Lb) eq_refl)
      as [C | [C | C]]; [discriminate C | exact C | discriminate C]. }
  assert (Hc : contains_ci F (py "STLIPAS") = true).
  { unfold contains_ci in *.
    assert (Hall : forallb (fun x => implb (is_infix x (map lower (py "SbSTLIPAS")))
                                       (is_infix x (map lower (py "STLIPAS"))))
                     (infixes (map lower (py "SaSTLIPAS"))) = true)
      by (vm_compute; reflexivity).
    rewrite forallb_forall in Hall.
    specialize (Hall _ (in_infixes _ _ Ha)). rewrite Hb in Hall. exact Hall. }
  assert (E : is_interesting (py "STLIPAS") = false).
  { apply (H _ Lc). right. left. exact Hc. }
  discriminate E.
Qed.

(** C5: the message of a group is the fragments of its continuation lines,
    in order, joined by newlines, one fragment per line: the empty text for
    a line of at most eight characters, else the line from offset 8 on,
    trimmed.  With one line only the message is empty. *)
Theorem message_fragments (row : str) (rest : list str) (p : Payment) :
  parse_from_list (row :: rest) = Ok p ->
  message p = join [LF] (map fragment rest) /\
  (rest = [] -> message p = []) /\
  (rest <> [] -> Forall is_line rest ->
   split_on LF (message p) = map fragment rest).
Proof.
  intros Hp. rewrite PaymentFacts.parse_from_list_eq in Hp.
  destruct (strptime_ymd _); [|discriminate].
  destruct (int _); [|discriminate].
  injection Hp as <-. cbn [message].
  assert (Hm : message_of (row :: rest) = join [LF] (map fragment rest)).
  { unfold message_of. destruct rest; reflexivity. }
  change (message_of (row :: rest) = join [LF] (map fragment rest) /\
          (rest = [] -> message_of (row :: rest) = []) /\
          (rest <> [] -> Forall is_line rest ->
           split_on LF (message_of (row :: rest)) = map fragment rest)).
  rewrite Hm. split; [reflexivity | split].
  - intros ->. reflexivity.
  - intros Hne Hlines. apply split_on_join.
    + destruct rest; [congruence | discriminate].
    + apply Forall_map. eapply Forall_impl; [|exact Hlines].
      intros line. apply parse_message_no_LF.
Qed.

Lemma message_fragments_witness :
  exists p,
    parse_from_list
      [sample_transaction; description_line (py "  INVOICE 42 ");
       description_line []; description_line (py "THANK YOU")] = Ok p /\
    message p = py "INVOICE 42" ++ [LF] ++ [LF] ++ py "THANK YOU" /\
    split_on LF (message p) = [py "INVOICE 42"; []; py "THANK YOU"].
Proof.
  eexists. split; [vm_compute; reflexivity|].
  match goal with
  | |- message ?q = _ /\ _ =>
      assert (Hp : parse_from_list
                     [sample_transaction; description_line (py "  INVOICE 42 ");
                      description_line []; description_line (py "THANK YOU")]
                   = Ok q) by (vm_compute; reflexivity)
  end.
  destruct (@message_fragments _ _ _ Hp) as (E & _ & S).
  split.
  - etransitivity; [exact E | vm_compute; reflexivity].
  - etransitivity; [apply S | vm_compute; reflexivity].
    + discriminate.
    + repeat constructor; apply is_line_check; vm_compute; reflexivity.
Defined.

(** C9: when the reference columns 160 to 178 of the first line hold,
    once trimmed, nothing but zeros (or nothing at all), the reference of
    the Payment is the empty text. *)
Theorem reference_of_zeros_is_empty (row : str) (rest : list str)
        (p : Payment) :
  parse_from_list (row :: rest) = Ok p ->
  forallb is_zero_char (strip (slice 160 179 row)) = true ->
  reference p = [].
Proof.
  intros Hp Hz. rewrite PaymentFacts.parse_from_list_eq in Hp.
  destruct (strptime_ymd _); [|discriminate].
  destruct (int _); [|discriminate].
  injection Hp as <-. cbn [reference].
  apply PaymentFacts.lstrip_all, Hz.
Qed.

Lemma reference_of_zeros_is_empty_witness :
  parse_from_list
    [transaction_line (py "150401") (py "12,50") (py "JOHN DOE")
                      (py "  0000000000 ")]
  = Ok {| p_datetime := {| year := 2015; month := 4; day := 1 |};
          amount := 1250; payer := py "JOHN DOE"; reference := [];
          message := [] |} /\
  reference {| p_datetime := {| year := 2015; month := 4; day := 1 |};
               amount := 1250; payer := py "JOHN DOE"; reference := [];
               message := [] |} = [].
Proof.
  assert (Hp : parse_from_list
                 [transaction_line (py "150401") (py "12,50") (py "JOHN DOE")
                                   (py "  0000000000 ")]
               = Ok {| p_datetime := {| year := 2015; month := 4; day := 1 |};
                       amount := 1250; payer := py "JOHN DOE"; reference := [];
                       message := [] |})
    by (vm_compute; reflexivity).
  split; [exact Hp|].
  apply (@reference_of_zeros_is_empty _ _ _ Hp). vm_compute. reflexivity.
Defined.

(** * Further properties of the program *)

(** ** Checks over all characters *)

Section AllChars.

Lemma in_all_chars c : In c all_chars.
Proof.
  unfold all_chars, chr. rewrite <- (ascii_nat_embedding c).
  apply in_map, in_seq. pose proof (nat_ascii_bounded c). lia.
Qed.

Lemma check_all (P : ascii -> bool) :
  forallb P all_chars = true -> forall c, P c = true.
Proof.
  rewrite forallb_forall. intros H c. apply H, in_all_chars.
Qed.

Lemma check_all_eq (P Q : ascii -> bool) :
  forallb (fun c => Bool.eqb (P c) (Q c)) all_chars = true ->
  forall c, P c = Q c.
Proof.
  intros H c. apply eqb_prop. revert c. apply check_all. exact H.
Qed.

Lemma check_all_eq_char (g h : ascii -> ascii) :
  forallb (fun c => Ascii.eqb (g c) (h c)) all_chars = true ->
  forall c, g c = h c.
Proof.
  intros H c. apply Ascii.eqb_eq. revert c. apply check_all. exact H.
Qed.

End AllChars.

(** ** The alphabet conversion *)

Module ConvertFacts.

Lemma fold_sub_chr subs : forall s,
  fold_left (fun acc p => Re.sub_chr (fst p) (snd p) acc) subs s =
  map (fun c => fold_left (fun x p => if Ascii.eqb x (fst p) then snd p else x)
                          subs c) s.
Proof.
  induction subs as [|p subs IH]; intros s; simpl.
  - symmetry. apply map_id.
  - rewrite IH. unfold Re.sub_chr. rewrite map_map. reflexivity.
Qed.

Lemma convert_char_scandic c : convert_char c = scandic c.
Proof.
  revert c. apply check_all_eq_char. vm_compute. reflexivity.
Qed.

(** The substitutions made in turn are the table looked up once. *)
Lemma convert_map s : convert_ascii_alphabets s = map scandic s.
Proof.
  unfold convert_ascii_alphabets. rewrite fold_sub_chr.
  apply map_ext. apply convert_char_scandic.
Qed.

Lemma scandic_idempotent c : scandic (scandic c) = scandic c.
Proof. revert c. apply check_all_eq_char. vm_compute. reflexivity. Qed.

Lemma scandic_not_national c : In (scandic c) national_characters -> False.
Proof.
  assert (H : forall x, existsb (Ascii.eqb (scandic x)) national_characters
                        = false).
  { apply check_all_eq with (Q := fun _ => false). vm_compute. reflexivity. }
  intros Hin. specialize (H c).
  assert (E : existsb (Ascii.eqb (scandic c)) national_characters = true).
  { apply existsb_exists. exists (scandic c). split; [exact Hin|].
    apply Ascii.eqb_refl. }
  congruence.
Qed.

Lemma scandic_other c : ~ In c national_characters -> scandic c = c.
Proof.
  intros Hn. unfold scandic.
  repeat match goal with
    | |- context [Ascii.eqb c ?d] =>
        destruct (Ascii.eqb_spec c d) as [->|_];
        [exfalso; apply Hn; unfold national_characters; simpl; auto 10|]
    end.
  reflexivity.
Qed.

Lemma scandic_linebreak c : is_linebreak (scandic c) = is_linebreak c.
Proof. revert c. apply check_all_eq. vm_compute. reflexivity. Qed.

Lemma scandic_ord (n : nat) c :
  n = 10 \/ n = 13 -> (ord (scandic c) =? n) = (ord c =? n).
Proof.
  intros [-> | ->]; revert c; apply check_all_eq; vm_compute; reflexivity.
Qed.

Lemma scandic_LF c : Ascii.eqb (scandic c) LF = Ascii.eqb c LF.
Proof. revert c. apply check_all_eq. vm_compute. reflexivity. Qed.

(** Splitting into lines and converting can be done in either order. *)
Lemma splitlines_from_scandic n : forall s cur,
  List.length s <= n ->
  splitlines_from (map scandic cur) (map scandic s) =
  map (map scandic) (splitlines_from cur s).
Proof.
  induction n as [|n IH]; intros s cur Hlen.
  - destruct s; [|simpl in Hlen; lia]. simpl.
    destruct cur; [reflexivity|]. simpl.
    rewrite <- map_rev. simpl. rewrite map_app. simpl.
    destruct (rev cur); reflexivity.
  - destruct s as [|c rest].
    + simpl. destruct cur; [reflexivity|]. simpl.
      rewrite <- map_rev. simpl. rewrite map_app. simpl.
      destruct (rev cur); reflexivity.
    + simpl in Hlen. cbn [map splitlines_from].
      rewrite scandic_linebreak. destruct (is_linebreak c).
      * cbn [map]. rewrite map_rev. f_equal.
        destruct rest as [|d rest']; [reflexivity|].
        cbn [map]. rewrite !scandic_ord by auto.
        simpl in Hlen.
        destruct ((ord c =? 13) && (ord d =? 10)).
        -- apply (IH rest' []). lia.
        -- apply (IH (d :: rest') []). simpl. lia.
      * apply (IH rest (c :: cur)). lia.
Qed.

Lemma splitlines_map s :
  splitlines (map scandic s) = map (map scandic) (splitlines s).
Proof.
  unfold splitlines.
  apply (@splitlines_from_scandic (List.length s) s [] (le_n _)).
Qed.

End ConvertFacts.

(** ** Patterns under a character map *)

Module MapFacts.
Import Re.

Section CharacterMap.
Variable fl : flags.
Variable f : ascii -> ascii.
Hypothesis f_LF : forall x, Ascii.eqb (f x) LF = Ascii.eqb x LF.

Lemma at_bol_map p : at_bol fl (option_map f p) = at_bol fl p.
Proof. destruct p as [x|]; simpl; [rewrite f_LF|]; reflexivity. Qed.

Lemma at_eol_map s : at_eol fl (map f s) = at_eol fl s.
Proof.
  destruct s as [|x s]; simpl; [reflexivity|].
  rewrite f_LF. destruct s; reflexivity.
Qed.

Lemma star_map (step : option ascii -> str -> cont -> bool) :
  (forall p s k' k, cont_agree f k' k ->
                    step (option_map f p) (map f s) k' = step p s k) ->
  forall n p s k' k,
    cont_agree f k' k ->
    star step n (option_map f p) (map f s) k' = star step n p s k.
Proof.
  intros Hstep. induction n as [|n IH]; intros p s k' k Hk; simpl.
  - apply Hk.
  - rewrite (Hk p s).
    erewrite Hstep; [reflexivity|].
    intros p' s'. rewrite !length_map.
    destruct (List.length s' <? List.length s); [|reflexivity].
    apply IH, Hk.
Qed.

(** A pattern whose literal characters [f] respects matches a text and its
    image alike. *)
Lemma matcher_map r :
  respects fl f r ->
  forall p s k' k,
    cont_agree f k' k ->
    matcher fl r (option_map f p) (map f s) k' = matcher fl r p s k.
Proof.
  induction r as [| c | | | | r1 IH1 r2 IH2 | r1 IH1 r2 IH2 | r IH];
    intros Hr p s k' k Hk; simpl in *.
  - apply Hk.
  - destruct s as [|x s]; simpl; [reflexivity|].
    rewrite Hr. destruct (chr_matches fl c x); [|reflexivity].
    apply (Hk (Some x) s).
  - destruct s as [|x s]; simpl; [reflexivity|].
    rewrite f_LF. destruct (Ascii.eqb x LF); [reflexivity|].
    apply (Hk (Some x) s).
  - rewrite at_bol_map, (Hk p s). reflexivity.
  - rewrite at_eol_map, (Hk p s). reflexivity.
  - destruct Hr as [H1 H2]. apply IH1; [exact H1|].
    intros p' s'. apply IH2; assumption.
  - destruct Hr as [H1 H2].
    rewrite (IH1 H1 p s k' k Hk), (IH2 H2 p s k' k Hk). reflexivity.
  - rewrite length_map. apply star_map; [|exact Hk].
    intros p0 s0 k0' k0 Hk0. apply IH; assumption.
Qed.

Lemma re_match_map r s :
  respects fl f r -> re_match fl r (map f s) = re_match fl r s.
Proof.
  intros Hr. unfold re_match.
  apply (matcher_map r Hr None s). intros p' s'. reflexivity.
Qed.

End CharacterMap.

Lemma startswith_map (f : ascii -> ascii) prefix :
  Forall (fun c => forall x, Ascii.eqb (f x) c = Ascii.eqb x c) prefix ->
  forall s, startswith (map f s) prefix = startswith s prefix.
Proof.
  induction 1 as [|c prefix Hc _ IH]; intros s; simpl; [reflexivity|].
  destruct s as [|x s]; simpl; [reflexivity|].
  rewrite Hc, IH. reflexivity.
Qed.

Ltac check_respects :=
  repeat split;
  try (intros x; revert x; apply check_all_eq; vm_compute; reflexivity).

(** The alphabet conversion changes no character that the classifier looks
    at. *)
Lemma is_description_scandic l :
  is_description (map scandic l) = is_description l.
Proof.
  unfold is_description. apply re_match_map.
  - apply ConvertFacts.scandic_LF.
  - unfold DESCRIPTION_MATCHER. simpl. check_respects.
Qed.

Lemma is_interesting_scandic l :
  is_interesting (map scandic l) = is_interesting l.
Proof.
  unfold is_interesting. f_equal. apply re_match_map.
  - apply ConvertFacts.scandic_LF.
  - unfold NOT_INTERESTING_MATCHER. simpl. check_respects.
Qed.

Lemma is_transaction_scandic l :
  is_transaction (map scandic l) = is_transaction l.
Proof.
  unfold is_transaction. apply startswith_map.
  unfold TRANSACTION. simpl.
  repeat constructor; intros x; revert x; apply check_all_eq;
    vm_compute; reflexivity.
Qed.

Lemma starts_group_scandic l :
  starts_group (map scandic l) = starts_group l.
Proof.
  unfold starts_group.
  rewrite is_transaction_scandic, is_interesting_scandic. reflexivity.
Qed.

Lemma take_descriptions_scandic following : forall t,
  take_descriptions (map (map scandic) t) (map (map scandic) following) =
  result_map (map (map scandic)) (take_descriptions t following).
Proof.
  induction following as [|l following IH]; intros t; simpl; [reflexivity|].
  rewrite is_description_scandic. destruct (is_description l); [|reflexivity].
  rewrite <- IH, map_app. reflexivity.
Qed.

Lemma bind_ext {A B} (c : result A) (k1 k2 : A -> result B) :
  (forall x, k1 x = k2 x) -> bind c k1 = bind c k2.
Proof. intros H. destruct c; simpl; auto. Qed.

Lemma bind_result_map {A B C} (h : A -> B) (c : result A) (k : B -> result C) :
  bind (result_map h c) k = bind c (fun x => k (h x)).
Proof. destruct c; reflexivity. Qed.

Lemma result_map_bind {A B C} (g : B -> C) (c : result A) (k : A -> result B) :
  result_map g (bind c k) = bind c (fun x => result_map g (k x)).
Proof. destruct c; reflexivity. Qed.

Lemma result_map_ext {A B} (g h : A -> B) (c : result A) :
  (forall x, g x = h x) -> result_map g c = result_map h c.
Proof. intros H. destruct c; simpl; [rewrite H|]; reflexivity. Qed.

Lemma scan_scandic contents : forall acc,
  scan (map (map (map scandic)) acc) (map (map scandic) contents) =
  result_map (map (map (map scandic))) (scan acc contents).
Proof.
  induction contents as [|v following IH]; intros acc; simpl; [reflexivity|].
  fold (starts_group (map scandic v)). fold (starts_group v).
  rewrite starts_group_scandic. destruct (starts_group v); [|apply IH].
  change [map scandic v] with (map (map scandic) [v]).
  rewrite take_descriptions_scandic, bind_result_map, result_map_bind.
  apply bind_ext. intros t. rewrite <- IH, !map_app. reflexivity.
Qed.

End MapFacts.

(** ** More on the grouper *)

Module ScanFacts.
Import ClassifierFacts GrouperFacts.

Lemma take_descriptions_raise_all following : forall t e,
  take_descriptions t following = Raise e ->
  Forall (fun l => is_description l = true) following.
Proof.
  induction following as [|l following IH]; intros t e; simpl.
  - constructor.
  - destruct (is_description l) eqn:Hl; [|discriminate].
    intros H. constructor; [exact Hl | eapply IH, H].
Qed.

(** The scan raises only at an interesting Transaction line that nothing
    but description lines follow. *)
Lemma scan_raise_inv contents : forall acc e,
  scan acc contents = Raise e ->
  exists pre v ds,
    contents = pre ++ v :: ds /\ starts_group v = true /\
    Forall (fun l => is_description l = true) ds.
Proof.
  induction contents as [|v following IH]; intros acc e; simpl.
  - discriminate.
  - fold (starts_group v). destruct (starts_group v) eqn:Hv.
    + destruct (take_descriptions [v] following) as [t|e'] eqn:Ht; simpl.
      * intros H. apply IH in H as (pre & w & ds & -> & Hw & Hds).
        exists (v :: pre), w, ds. auto.
      * intros _. exists [], v, following. repeat split; [exact Hv|].
        eapply take_descriptions_raise_all, Ht.
    + intros H. apply IH in H as (pre & w & ds & -> & Hw & Hds).
      exists (v :: pre), w, ds. auto.
Qed.

Lemma take_while_all {A} (p : A -> bool) l :
  Forall (fun x => p x = true) (take_while p l).
Proof.
  induction l as [|x l IH]; simpl; [constructor|].
  destruct (p x) eqn:Hx; constructor; assumption.
Qed.

Lemma description_length l : is_description l = true -> 8 <= List.length l.
Proof.
  intros H. apply description_shape in H as (c1 & c2 & c3 & a & b & -> & _).
  rewrite !length_app. simpl. lia.
Qed.

Lemma groups_of_heads contents :
  map (hd []) (groups_of contents) = filter starts_group contents.
Proof.
  induction contents as [|v following IH]; simpl; [reflexivity|].
  destruct (starts_group v); simpl; [f_equal|]; exact IH.
Qed.

Lemma groups_of_shape contents :
  Forall (fun g => exists v ds,
              g = v :: ds /\ starts_group v = true /\
              Forall (fun d => is_description d = true /\ 8 <= List.length d) ds)
         (groups_of contents).
Proof.
  induction contents as [|v following IH]; simpl; [constructor|].
  destruct (starts_group v) eqn:Hv; [|exact IH].
  constructor; [|exact IH].
  exists v, (take_while is_description following). repeat split; [exact Hv|].
  eapply Forall_impl; [|apply take_while_all].
  intros d Hd. split; [exact Hd | apply description_length, Hd].
Qed.

Lemma grouped_lines_inside contents :
  grouped_lines true contents =
  take_while is_description contents ++ grouped_lines false contents.
Proof.
  induction contents as [|l rest IH]; simpl; [reflexivity|].
  destruct (starts_group l) eqn:Hl.
  - assert (Hd : is_description l = false).
    { destruct (is_description l) eqn:E; [|reflexivity].
      apply description_starts_no_group in E. congruence. }
    rewrite Hd. reflexivity.
  - destruct (is_description l); simpl; [|reflexivity].
    rewrite IH. reflexivity.
Qed.

Lemma groups_of_concat contents :
  List.concat (groups_of contents) = grouped_lines false contents.
Proof.
  induction contents as [|v following IH]; simpl; [reflexivity|].
  destruct (starts_group v); [|exact IH].
  simpl. rewrite IH, grouped_lines_inside. reflexivity.
Qed.

End ScanFacts.

(** ** More on the run *)

Module RunFacts.
Import GrouperFacts PaymentFacts MainFacts.

Lemma all_parsed transactions payments :
  Forall2 (fun t p => parse_from_list t = Ok p) transactions payments ->
  payments_built transactions = payments /\ first_failure transactions = None.
Proof.
  induction 1 as [|t p ts ps Hp _ [IH1 IH2]]; simpl; [auto|].
  rewrite Hp, IH1, IH2. auto.
Qed.

Lemma parsed_until transactions payments t rest e :
  Forall2 (fun t p => parse_from_list t = Ok p) transactions payments ->
  parse_from_list t = Raise e ->
  payments_built (transactions ++ t :: rest) = payments /\
  first_failure (transactions ++ t :: rest) = Some e.
Proof.
  intros H Ht. induction H as [|t' p ts ps Hp _ [IH1 IH2]]; simpl.
  - rewrite Ht. auto.
  - rewrite Hp, IH1, IH2. auto.
Qed.

Lemma found_count filecontents transactions :
  group_transactions (decoded_lines filecontents) = Ok transactions ->
  List.length transactions =
  List.length (filter starts_group (decoded_lines filecontents)).
Proof.
  intros H. rewrite (groups_found _ H). apply groups_of_length.
Qed.

End RunFacts.

(** ** More on the fields of a payment *)

Module FieldFacts.

Lemma lstrip_begins p s : begins_with p (lstrip_by p s) = false.
Proof.
  induction s as [|c s IH]; simpl; [reflexivity|].
  destruct (p c) eqn:Hc; [exact IH | simpl; exact Hc].
Qed.

Lemma lstrip_suffix p s : exists pre, s = pre ++ lstrip_by p s.
Proof.
  induction s as [|c s [pre IH]]; simpl.
  - exists []. reflexivity.
  - destruct (p c).
    + exists (c :: pre). simpl. f_equal. exact IH.
    + exists []. reflexivity.
Qed.

Lemma rstrip_prefix p s : exists post, s = rstrip_by p s ++ post.
Proof.
  unfold rstrip_by. destruct (lstrip_suffix p (rev s)) as [pre H].
  exists (rev pre). rewrite <- rev_app_distr, <- H. symmetry.
  apply rev_involutive.
Qed.

Lemma rstrip_ends p s : ends_with p (rstrip_by p s) = false.
Proof.
  unfold ends_with, rstrip_by. rewrite rev_involutive. apply lstrip_begins.
Qed.

Lemma begins_with_prefix p a post :
  begins_with p (a ++ post) = false -> begins_with p a = false.
Proof. destruct a; simpl; auto. Qed.

Lemma ends_with_suffix p pre a :
  ends_with p (pre ++ a) = false -> ends_with p a = false.
Proof.
  unfold ends_with. rewrite rev_app_distr. apply begins_with_prefix.
Qed.

(** What [strip] returns neither begins nor ends with white space. *)
Lemma strip_begins s : begins_with isspace (strip s) = false.
Proof.
  unfold strip.
  destruct (rstrip_prefix isspace (lstrip_by isspace s)) as [post H].
  apply begins_with_prefix with (post := post).
  rewrite <- H. apply lstrip_begins.
Qed.

Lemma strip_ends s : ends_with isspace (strip s) = false.
Proof. unfold strip. apply rstrip_ends. Qed.

Lemma lstrip_keeps_end p q s :
  ends_with q s = false -> ends_with q (lstrip_by p s) = false.
Proof.
  intros H. destruct (lstrip_suffix p s) as [pre E].
  apply ends_with_suffix with (pre := pre). rewrite <- E. exact H.
Qed.

(** Digits are neither white space, nor signs, nor separators. *)
Lemma isdigit_plain c :
  isdigit c = true ->
  int_isspace c = false /\ Ascii.eqb c "-" = false /\
  Ascii.eqb c "+" = false /\ is_comma_or_period c = false.
Proof.
  assert (H : forall x,
             implb (isdigit x)
                   (negb (int_isspace x) && negb (Ascii.eqb x "-")
                    && negb (Ascii.eqb x "+") && negb (is_comma_or_period x))
             = true).
  { apply check_all. vm_compute. reflexivity. }
  intros Hc. specialize (H c). rewrite Hc in H. simpl in H.
  rewrite !andb_true_iff, !negb_true_iff in H. tauto.
Qed.

Lemma int_digits_all r : forall acc,
  forallb isdigit r = true ->
  int_digits acc r =
  Some (fold_left (fun a c => (10 * a + digit_value c)%Z) r acc).
Proof.
  induction r as [|c r IH]; intros acc H; simpl; [reflexivity|].
  simpl in H. apply andb_true_iff in H as [Hc Hr].
  rewrite Hc. apply IH, Hr.
Qed.

Lemma forallb_rev {A} (p : A -> bool) l : forallb p (rev l) = forallb p l.
Proof.
  induction l as [|x l IH]; simpl; [reflexivity|].
  rewrite forallb_app, IH. simpl. rewrite andb_true_r. apply andb_comm.
Qed.

Lemma lstrip_no_space s :
  begins_with int_isspace s = false -> lstrip_by int_isspace s = s.
Proof. destruct s as [|c s]; simpl; [reflexivity|]. intros ->. reflexivity. Qed.

Lemma digits_begin s :
  forallb isdigit s = true -> begins_with int_isspace s = false.
Proof.
  destruct s as [|c s]; simpl; [reflexivity|].
  intros H. apply andb_true_iff in H as [Hc _].
  apply isdigit_plain in Hc. tauto.
Qed.

(** [int] reads a text of digits as the number they write, leading zeros
    included; it rejects the empty text. *)
Lemma int_of_digits s :
  forallb isdigit s = true ->
  int s = match s with [] => Raise ValueError | _ => Ok (decimal_value s) end.
Proof.
  intros H. unfold int.
  rewrite (lstrip_no_space s (digits_begin s H)).
  unfold rstrip_by. rewrite lstrip_no_space, rev_involutive.
  2:{ apply digits_begin. rewrite forallb_rev. exact H. }
  destruct s as [|c s]; [reflexivity|].
  simpl in H. apply andb_true_iff in H as [Hc Hs].
  destruct (isdigit_plain c Hc) as (_ & Hm & Hp & _).
  rewrite Hm, Hp. cbn [int_unsigned]. rewrite Hc.
  rewrite int_digits_all by exact Hs.
  rewrite Z.mul_1_l. unfold decimal_value. cbn [fold_left].
  rewrite Z.mul_0_r, Z.add_0_l. reflexivity.
Qed.

Lemma separators_deleted a :
  forallb (fun c => isdigit c || is_comma_or_period c) a = true ->
  Re.sub_class_empty is_comma_or_period a = filter isdigit a.
Proof.
  unfold Re.sub_class_empty. induction a as [|c a IH]; simpl; [reflexivity|].
  intros H. apply andb_true_iff in H as [Hc Ha].
  rewrite (IH Ha). destruct (isdigit c) eqn:Hd.
  - apply isdigit_plain in Hd as (_ & _ & _ & ->). reflexivity.
  - simpl in Hc. rewrite Hc. reflexivity.
Qed.

Lemma filter_all {A} (p : A -> bool) l : forallb p (filter p l) = true.
Proof.
  induction l as [|x l IH]; simpl; [reflexivity|].
  destruct (p x) eqn:Hx; simpl; [rewrite Hx|]; exact IH.
Qed.

(** Ranges of the digits the date parser reads. *)
Lemma digit_in_range lo hi c :
  digit_in lo hi c = true ->
  (Z.of_nat lo <= digit_value c <= Z.of_nat hi)%Z.
Proof.
  unfold digit_in, digit_value. rewrite andb_true_iff, !Nat.leb_le. lia.
Qed.

Lemma isdigit_range c : isdigit c = true -> (0 <= digit_value c <= 9)%Z.
Proof.
  unfold isdigit, digit_value. rewrite andb_true_iff, !Nat.leb_le. lia.
Qed.

Ltac alternatives H :=
  repeat match type of H with
    | context [if ?b then _ else _] =>
        let E := fresh "E" in destruct b eqn:E
    end;
  cbn [In app] in H;
  repeat (destruct H as [H | H]); try contradiction;
  apply pair_equal_spec in H as [<- <-];
  repeat match goal with
    | E : _ && _ = true |- _ => apply andb_true_iff in E as [? ?]
    end;
  repeat match goal with
    | E : digit_in _ _ _ = true |- _ => apply digit_in_range in E
    | E : isdigit _ = true |- _ => apply isdigit_range in E
    end;
  lia.

Lemma month_alternatives_range s m r :
  In (m, r) (month_alternatives s) -> (1 <= m <= 12)%Z.
Proof.
  unfold month_alternatives. destruct s as [|a [|b r0]]; intros H.
  - destruct H.
  - alternatives H.
  - alternatives H.
Qed.

Lemma day_alternatives_range s d r :
  In (d, r) (day_alternatives s) -> (1 <= d <= 31)%Z.
Proof.
  unfold day_alternatives. destruct s as [|a [|b r0]]; intros H.
  - destruct H.
  - alternatives H.
  - alternatives H.
Qed.

(** A date that [strptime] returns is a day of the calendar between 1969
    and 2068. *)
Lemma strptime_range s dt :
  strptime_ymd s = Ok dt ->
  (1969 <= year dt <= 2068 /\ 1 <= month dt <= 12 /\
   1 <= day dt <= days_in_month (year dt) (month dt))%Z.
Proof.
  unfold strptime_ymd.
  destruct s as [|y1 [|y2 s1]]; try discriminate.
  destruct (isdigit y1) eqn:H1; [|discriminate].
  destruct (isdigit y2) eqn:H2; [|discriminate]. cbn [andb].
  destruct (flat_map _ _) as [|[[m d] rest] found] eqn:Hf; [discriminate|].
  destruct rest; [|discriminate]. cbv zeta.
  remember (10 * digit_value y1 + digit_value y2)%Z as yy eqn:Hyy.
  remember (if (yy <=? 68)%Z then (2000 + yy)%Z else (1900 + yy)%Z) as y eqn:Hy.
  destruct (d <=? days_in_month y m)%Z eqn:Hd; [|discriminate].
  intros H.
  assert (Hdt : dt = {| year := y; month := m; day := d |}) by congruence.
  subst dt. cbn [year month day].
  assert (Hin : In (m, d, @nil ascii)
                   (flat_map (fun '(m, s2) =>
                                map (fun '(d, s3) => (m, d, s3))
                                    (day_alternatives s2))
                             (month_alternatives s1)))
    by (rewrite Hf; left; reflexivity).
  apply in_flat_map in Hin as ([m' s2] & Hm & Hin).
  apply in_map_iff in Hin as ([d' s3] & E & Hday).
  apply pair_equal_spec in E as [E ->].
  apply pair_equal_spec in E as [-> ->].
  apply month_alternatives_range in Hm.
  apply day_alternatives_range in Hday.
  apply isdigit_range in H1, H2. apply Z.leb_le in Hd.
  assert (Hrange : (1969 <= y <= 2068)%Z).
  { subst y. destruct (Z.leb_spec yy 68); lia. }
  lia.
Qed.

End FieldFacts.

(** ** Properties of the conversion, the scan, the run and the fields *)

(** X1: [convert_ascii_alphabets] makes its six substitutions as if all at
    once: each of the characters ] [ \ } { | becomes its letter and every
    other character stays.  The text keeps its length, none of the six
    characters is left in it, and converting again changes nothing. *)
Theorem convert_replaces_six_characters (s : str) :
  convert_ascii_alphabets s = map scandic s /\
  List.length (convert_ascii_alphabets s) = List.length s /\
  (forall c, In c national_characters -> ~ In c (convert_ascii_alphabets s)) /\
  (forall c, ~ In c national_characters -> scandic c = c) /\
  convert_ascii_alphabets (convert_ascii_alphabets s) = convert_ascii_alphabets s.
Proof.
  rewrite !ConvertFacts.convert_map. repeat split.
  - apply length_map.
  - intros c Hc Hin. apply in_map_iff in Hin as (x & <- & _).
    exact (ConvertFacts.scandic_not_national x Hc).
  - apply ConvertFacts.scandic_other.
  - rewrite map_map. apply map_ext. apply ConvertFacts.scandic_idempotent.
Qed.

(** X2: converting the whole text and then splitting it into lines gives
    the lines of the text, each converted: the conversion neither makes
    nor removes a line boundary. *)
Theorem splitlines_commutes_with_conversion (filecontents : str) :
  splitlines (convert_ascii_alphabets filecontents) =
  map convert_ascii_alphabets (splitlines filecontents).
Proof.
  rewrite ConvertFacts.convert_map, ConvertFacts.splitlines_map.
  apply map_ext. intros l. symmetry. apply ConvertFacts.convert_map.
Qed.

(** X3: the conversion never changes how a line is classified: a line is a
    Transaction line, a description line, an interesting line after the
    conversion exactly when it was before. *)
Theorem conversion_keeps_classification (l : str) :
  is_transaction (convert_ascii_alphabets l) = is_transaction l /\
  is_description (convert_ascii_alphabets l) = is_description l /\
  is_interesting (convert_ascii_alphabets l) = is_interesting l.
Proof.
  rewrite ConvertFacts.convert_map. repeat split.
  - apply MapFacts.is_transaction_scandic.
  - apply MapFacts.is_description_scandic.
  - apply MapFacts.is_interesting_scandic.
Qed.

(** X4: the groups of the converted file are the groups of the file as it
    was read, with every line converted; the scan of the one raises
    exactly when the scan of the other does. *)
Theorem grouping_commutes_with_conversion (filecontents : str) :
  group_transactions (decoded_lines filecontents) =
  result_map (map (map convert_ascii_alphabets))
             (group_transactions (splitlines filecontents)).
Proof.
  unfold decoded_lines, group_transactions.
  rewrite ConvertFacts.convert_map, ConvertFacts.splitlines_map.
  change (@nil (list str)) with (map (map (map scandic)) []) at 1.
  rewrite MapFacts.scan_scandic.
  apply MapFacts.result_map_ext. intros gs.
  apply map_ext. intros g. apply map_ext. intros l.
  symmetry. apply ConvertFacts.convert_map.
Qed.

(** X5: the scan raises IndexError exactly when some interesting
    Transaction line has nothing but description lines after it up to the
    end of the input; it raises nothing else. *)
Theorem scan_raises_exactly_at_open_end (contents : list str) :
  (group_transactions contents = Raise IndexError <->
   exists pre v ds,
     contents = pre ++ v :: ds /\ starts_group v = true /\
     Forall (fun l => is_description l = true) ds) /\
  (forall e, group_transactions contents = Raise e -> e = IndexError).
Proof.
  split; [split|].
  - apply ScanFacts.scan_raise_inv.
  - intros (pre & v & ds & -> & Hv & Hds).
    apply GrouperFacts.scan_eof; assumption.
  - apply GrouperFacts.scan_raises.
Qed.

(** X6: when the scan completes, there is one group per interesting
    Transaction line, in the order of these lines; each group is that line
    followed by description lines only, and each of those has at least the
    eight characters of its prefix. *)
Theorem groups_follow_transaction_lines (contents : list str)
        (gs : list (list str)) :
  group_transactions contents = Ok gs ->
  map (hd []) gs = filter starts_group contents /\
  Forall (fun g => exists v ds,
              g = v :: ds /\ starts_group v = true /\
              Forall (fun d => is_description d = true /\ 8 <= List.length d) ds)
         gs.
Proof.
  intros H. apply GrouperFacts.scan_ok in H. simpl in H. subst gs. split.
  - apply ScanFacts.groups_of_heads.
  - apply ScanFacts.groups_of_shape.
Qed.

Lemma groups_follow_transaction_lines_witness :
  exists gs,
    group_transactions sample_statement = Ok gs /\
    map (hd []) gs = [sample_transaction; sample_transaction] /\
    Forall (fun g => exists v ds,
                g = v :: ds /\ starts_group v = true /\
                Forall (fun d => is_description d = true /\ 8 <= List.length d)
                       ds)
           gs.
Proof.
  eexists. split; [vm_compute; reflexivity|].
  match goal with
  | |- map _ ?gs = _ /\ _ =>
      assert (H : group_transactions sample_statement = Ok gs)
        by (vm_compute; reflexivity)
  end.
  destruct (groups_follow_transaction_lines _ H) as [Hh Hs].
  split; [|exact Hs].
  etransitivity; [exact Hh | vm_compute; reflexivity].
Defined.

(** X7: when the scan completes, the lines of all groups, taken together,
    are the lines one pass over the input keeps: every interesting
    Transaction line and the description lines directly after it.  So no
    line is in two groups, the order of the input is kept, and the
    description lines of a suppressed transaction are in no group. *)
Theorem groups_take_each_line_once (contents : list str)
        (gs : list (list str)) :
  group_transactions contents = Ok gs ->
  List.concat gs = grouped_lines false contents.
Proof.
  intros H. apply GrouperFacts.scan_ok in H. simpl in H. subst gs.
  apply ScanFacts.groups_of_concat.
Qed.

Lemma groups_take_each_line_once_witness :
  exists gs,
    group_transactions sample_statement = Ok gs /\
    List.concat gs =
    [sample_transaction; description_line (py "  INVOICE 42");
     sample_transaction].
Proof.
  eexists. split; [vm_compute; reflexivity|].
  match goal with
  | |- List.concat ?gs = _ =>
      assert (H : group_transactions sample_statement = Ok gs)
        by (vm_compute; reflexivity)
  end.
  etransitivity; [exact (groups_take_each_line_once _ H)|].
  vm_compute. reflexivity.
Defined.

(** X8: the run ends with the notice, no output file and no exception
    exactly when no line of the decoded input is an interesting Transaction
    line. *)
Theorem notice_iff_nothing_interesting (filecontents : str) :
  main filecontents =
  {| output_file := None; stdout := [NoInterestingTransactions];
     raised := None |}
  <-> filter starts_group (decoded_lines filecontents) = [].
Proof.
  split.
  - intros Hm.
    destruct (group_transactions (decoded_lines filecontents))
      as [[|t ts]|e] eqn:H.
    + apply RunFacts.found_count in H. simpl in H.
      apply length_zero_iff_nil. symmetry. exact H.
    + rewrite (MainFacts.main_writes _ H) in Hm by discriminate.
      discriminate Hm.
    + rewrite (MainFacts.main_scan_raises _ H) in Hm. discriminate Hm.
  - apply MainFacts.main_nothing_interesting.
Qed.

(** X9: when the scan completes with at least one group and every group
    parses, the output file is the header row followed by the rows of the
    payments, one per group and in their order, and the closing message
    counts the interesting Transaction lines of the input. *)
Theorem run_writes_every_payment (filecontents : str)
        (transactions : list (list str)) (payments : list Payment) :
  group_transactions (decoded_lines filecontents) = Ok transactions ->
  transactions <> [] ->
  Forall2 (fun t p => parse_from_list t = Ok p) transactions payments ->
  main filecontents =
  {| output_file := Some (HeaderRow DICT_FIELDS :: map PaymentRow payments);
     stdout :=
       [WroteTransactions
          (List.length (filter starts_group (decoded_lines filecontents)))];
     raised := None |}.
Proof.
  intros H Hne Hall.
  rewrite (MainFacts.main_writes _ H Hne).
  destruct (RunFacts.all_parsed Hall) as [-> ->].
  rewrite (RunFacts.found_count _ H). reflexivity.
Qed.

Lemma run_writes_every_payment_witness :
  main sample_file =
  {| output_file :=
       Some (HeaderRow DICT_FIELDS ::
             map PaymentRow
               [ {| p_datetime := {| year := 2015; month := 4; day := 1 |};
                    amount := 1234; payer := py "JOHN DOE";
                    reference := py "123"; message := py "INVOICE 42" |};
                 {| p_datetime := {| year := 2015; month := 4; day := 1 |};
                    amount := 1234; payer := py "JOHN DOE";
                    reference := py "123"; message := [] |} ]);
     stdout := [WroteTransactions 2];
     raised := None |}.
Proof.
  etransitivity.
  - apply (@run_writes_every_payment sample_file
             [[sample_transaction; description_line (py "  INVOICE 42")];
              [sample_transaction]]).
    + vm_compute. reflexivity.
    + discriminate.
    + repeat constructor.
  - vm_compute. reflexivity.
Defined.

(** X10: when a group fails to parse, the run ends with ValueError and
    without the closing message, and the output file is left with the
    header row and the rows of the groups before the failing one. *)
Theorem run_stops_at_first_bad_group (filecontents : str)
        (before : list (list str)) (t : list str) (after : list (list str))
        (payments : list Payment) (e : exn) :
  group_transactions (decoded_lines filecontents) = Ok (before ++ t :: after) ->
  Forall2 (fun t p => parse_from_list t = Ok p) before payments ->
  parse_from_list t = Raise e ->
  main filecontents =
  {| output_file := Some (HeaderRow DICT_FIELDS :: map PaymentRow payments);
     stdout := [];
     raised := Some ValueError |}.
Proof.
  intros H Hall Ht.
  assert (Hne : before ++ t :: after <> []) by (destruct before; discriminate).
  rewrite (MainFacts.main_writes _ H Hne).
  destruct (RunFacts.parsed_until t after Hall Ht) as [-> ->].
  assert (He : e = ValueError).
  { pose proof (GrouperFacts.groups_of_nonempty (decoded_lines filecontents))
      as Hg.
    rewrite <- (MainFacts.groups_found _ H) in Hg.
    apply Forall_app in Hg as [_ Hg]. inversion Hg as [|? ? Hnt _]; subst.
    destruct t as [|row rest]; [congruence|].
    eapply PaymentFacts.parse_from_list_raises, Ht. }
  subst e. reflexivity.
Qed.

Lemma run_stops_at_first_bad_group_witness :
  main broken_file =
  {| output_file :=
       Some [HeaderRow DICT_FIELDS;
             PaymentRow
               {| p_datetime := {| year := 2015; month := 4; day := 1 |};
                  amount := 1234; payer := py "JOHN DOE";
                  reference := py "123"; message := [] |}];
     stdout := [];
     raised := Some ValueError |}.
Proof.
  apply (@run_stops_at_first_bad_group broken_file
           [[sample_transaction]]
           [transaction_line (py "15JAN1") (py "1,00") (py "JANE DOE") (py "7")]
           [[sample_transaction]]
           [ {| p_datetime := {| year := 2015; month := 4; day := 1 |};
                amount := 1234; payer := py "JOHN DOE";
                reference := py "123"; message := [] |} ]
           ValueError).
  - vm_compute. reflexivity.
  - repeat constructor.
  - vm_compute. reflexivity.
Defined.

(** X11: in a Payment that was built, the payer neither begins nor ends
    with white space, and the reference neither begins with a zero nor
    ends with white space. *)
Theorem payer_and_reference_trimmed (row : str) (rest : list str)
        (p : Payment) :
  parse_from_list (row :: rest) = Ok p ->
  begins_with isspace (payer p) = false /\
  ends_with isspace (payer p) = false /\
  begins_with is_zero_char (reference p) = false /\
  ends_with isspace (reference p) = false.
Proof.
  intros Hp. rewrite PaymentFacts.parse_from_list_eq in Hp.
  destruct (strptime_ymd _) as [a|]; [|discriminate].
  destruct (int _) as [a0|]; [|discriminate].
  assert (E : p = {| p_datetime := a; amount := a0;
                     payer := strip (slice 108 143 row);
                     reference :=
                       lstrip_by is_zero_char (strip (slice 160 179 row));
                     message := message_of (row :: rest) |})
    by congruence.
  subst p. cbn [payer reference]. repeat split.
  - apply FieldFacts.strip_begins.
  - apply FieldFacts.strip_ends.
  - apply FieldFacts.lstrip_begins.
  - apply FieldFacts.lstrip_keeps_end, FieldFacts.strip_ends.
Qed.

Lemma payer_and_reference_trimmed_witness :
  exists p,
    parse_from_list
      [transaction_line (py "150401") (py "12,50") (py "  JOHN DOE ")
                        (py " 0012 3400 ")] = Ok p /\
    payer p = py "JOHN DOE" /\ reference p = py "12 3400" /\
    begins_with isspace (payer p) = false /\
    ends_with isspace (payer p) = false /\
    begins_with is_zero_char (reference p) = false /\
    ends_with isspace (reference p) = false.
Proof.
  eexists. split; [vm_compute; reflexivity|].
  split; [reflexivity | split; [reflexivity|]].
  match goal with
  | |- begins_with _ (payer ?q) = _ /\ _ =>
      assert (H : parse_from_list
                    [transaction_line (py "150401") (py "12,50")
                                      (py "  JOHN DOE ") (py " 0012 3400 ")]
                  = Ok q) by (vm_compute; reflexivity)
  end.
  exact (@payer_and_reference_trimmed _ _ _ H).
Defined.

(** X12: when the trimmed amount columns hold digits, commas and periods
    only, the amount of the Payment is the number that the digits write
    when read together, whatever the places of the separators. *)
Theorem amount_is_digits_read_together (row : str) (rest : list str)
        (p : Payment) :
  parse_from_list (row :: rest) = Ok p ->
  forallb (fun c => isdigit c || is_comma_or_period c)
          (strip (slice 87 106 row)) = true ->
  amount p = decimal_value (filter isdigit (strip (slice 87 106 row))).
Proof.
  intros Hp Hall. rewrite PaymentFacts.parse_from_list_eq in Hp.
  destruct (strptime_ymd _); [|discriminate].
  rewrite (FieldFacts.separators_deleted _ Hall) in Hp.
  rewrite (FieldFacts.int_of_digits _ (FieldFacts.filter_all isdigit _)) in Hp.
  destruct (filter isdigit (strip (slice 87 106 row))); [discriminate|].
  injection Hp as <-. reflexivity.
Qed.

Lemma amount_is_digits_read_together_witness :
  exists p,
    parse_from_list
      [transaction_line (py "150401") (py "1.234,56") (py "JOHN DOE")
                        (py "7")] = Ok p /\
    amount p = 123456%Z.
Proof.
  eexists. split; [vm_compute; reflexivity|].
  match goal with
  | |- amount ?q = _ =>
      assert (H : parse_from_list
                    [transaction_line (py "150401") (py "1.234,56")
                                      (py "JOHN DOE") (py "7")]
                  = Ok q) by (vm_compute; reflexivity)
  end.
  etransitivity.
  - apply (@amount_is_digits_read_together _ _ _ H). vm_compute. reflexivity.
  - vm_compute. reflexivity.
Defined.

(** X13: the date of a Payment that was built is a day of the calendar
    between 1969 and 2068: a month from 1 to 12 and a day that this month
    of this year has. *)
Theorem payment_date_in_range (row : str) (rest : list str) (p : Payment) :
  parse_from_list (row :: rest) = Ok p ->
  (1969 <= year (p_datetime p) <= 2068 /\
   1 <= month (p_datetime p) <= 12 /\
   1 <= day (p_datetime p)
   <= days_in_month (year (p_datetime p)) (month (p_datetime p)))%Z.
Proof.
  intros Hp. rewrite PaymentFacts.parse_from_list_eq in Hp.
  destruct (strptime_ymd _) as [dt|] eqn:Hd; [|discriminate].
  destruct (int _); [|discriminate].
  assert (E : p_datetime p = dt) by (injection Hp as <-; reflexivity).
  rewrite E. eapply FieldFacts.strptime_range, Hd.
Qed.

Lemma payment_date_in_range_witness :
  exists p,
    parse_from_list
      [transaction_line (py "690229") (py "1") (py "JOHN DOE") (py "7")]
    = Raise ValueError /\
    parse_from_list
      [transaction_line (py "720229") (py "1") (py "JOHN DOE") (py "7")]
    = Ok p /\
    p_datetime p = {| year := 1972; month := 2; day := 29 |} /\
    (1969 <= year (p_datetime p) <= 2068 /\
     1 <= month (p_datetime p) <= 12 /\
     1 <= day (p_datetime p)
     <= days_in_month (year (p_datetime p)) (month (p_datetime p)))%Z.
Proof.
  eexists. split; [vm_compute; reflexivity|].
  split; [vm_compute; reflexivity|]. split; [reflexivity|].
  match goal with
  | |- (_ <= year (p_datetime ?q) <= _ /\ _)%Z =>
      assert (H : parse_from_list
                    [transaction_line (py "720229") (py "1") (py "JOHN DOE")
                                      (py "7")]
                  = Ok q) by (vm_compute; reflexivity)
  end.
  exact (@payment_date_in_range _ _ _ H).
Defined.

(** ** Columns, integers and dates said directly *)

Module SpecFacts.

Lemma skipn_nth (row : str) : forall a,
  skipn a row = match nth_error row a with
                | Some c => c :: skipn (S a) row
                | None => []
                end.
Proof.
  induction row as [|c row IH]; intros [|a]; try reflexivity.
  simpl. apply IH.
Qed.

Lemma firstn_skipn_chars (row : str) n : forall a,
  firstn n (skipn a row) =
  flat_map (fun i => match nth_error row i with
                     | Some c => [c]
                     | None => []
                     end)
           (seq a n).
Proof.
  induction n as [|n IH]; intros a; [reflexivity|].
  cbn [seq flat_map]. rewrite <- IH, (skipn_nth row a).
  destruct (nth_error row a) as [c|] eqn:E; [reflexivity|].
  apply nth_error_None in E.
  rewrite (skipn_all2 row) by lia. rewrite !firstn_nil. reflexivity.
Qed.

(** A slice is the characters at its positions. *)
Lemma slice_chars_at a b row : slice a b row = chars_at a b row.
Proof. apply firstn_skipn_chars. Qed.

(** *** Integers *)

Lemma ends_with_cons p (c : ascii) r :
  r <> [] -> ends_with p (c :: r) = ends_with p r.
Proof.
  unfold ends_with. simpl. intros Hr.
  destruct (rev r) as [|x l] eqn:E; [|reflexivity].
  apply (f_equal (@rev ascii)) in E. rewrite rev_involutive in E.
  simpl in E. congruence.
Qed.

Lemma digit_not_underscore c : isdigit c = true -> is_underscore c = false.
Proof.
  assert (H : forall x, implb (isdigit x) (negb (is_underscore x)) = true)
    by (apply check_all; vm_compute; reflexivity).
  intros Hc. specialize (H c). rewrite Hc in H. simpl in H.
  apply negb_true_iff. exact H.
Qed.

Lemma tail_ok_digit c r : isdigit c = true -> tail_ok (c :: r) = tail_ok r.
Proof.
  intros Hc. unfold tail_ok. cbn [forallb]. rewrite Hc. cbn [orb andb].
  assert (He : ends_with is_underscore (c :: r) = ends_with is_underscore r).
  { destruct r as [|x r]; [|apply ends_with_cons; discriminate].
    unfold ends_with. simpl. apply digit_not_underscore, Hc. }
  rewrite He. destruct r as [|x r]; [reflexivity|].
  cbn [tl combine forallb fst snd].
  rewrite (digit_not_underscore c Hc). reflexivity.
Qed.

Lemma int_digits_spec n : forall r acc,
  List.length r <= n ->
  int_digits acc r =
  if tail_ok r
  then Some (fold_left (fun a c => (10 * a + digit_value c)%Z)
                       (filter isdigit r) acc)
  else None.
Proof.
  induction n as [|n IH]; intros r acc Hlen.
  - destruct r; [reflexivity | simpl in Hlen; lia].
  - destruct r as [|c r]; [reflexivity|]. simpl in Hlen.
    cbn [int_digits filter]. destruct (isdigit c) eqn:Hc.
    + rewrite (tail_ok_digit c r Hc). cbn [fold_left]. apply IH. lia.
    + destruct (Ascii.eqb c "_") eqn:Hu.
      * assert (Hcu : is_underscore c = true) by exact Hu.
        destruct r as [|d r].
        { unfold tail_ok, ends_with. simpl. rewrite Hc, Hcu. reflexivity. }
        destruct (isdigit d) eqn:Hd.
        -- rewrite (IH r _ ltac:(simpl in Hlen; lia)).
           cbn [filter]. rewrite Hd. cbn [fold_left].
           assert (E : tail_ok (c :: d :: r) = tail_ok r).
           { rewrite <- (tail_ok_digit d r Hd). unfold tail_ok.
             cbn [forallb tl combine fst snd].
             rewrite Hc, Hcu, Hd. cbn [orb andb].
             rewrite (@ends_with_cons is_underscore c (d :: r))
               by discriminate.
             rewrite (digit_not_underscore d Hd). reflexivity. }
           rewrite E. reflexivity.
        -- assert (E : tail_ok (c :: d :: r) = false).
           { unfold tail_ok. cbn [forallb tl combine fst snd].
             rewrite Hc, Hcu, Hd. cbn [orb andb].
             destruct (is_underscore d) eqn:Hud.
             - cbn [negb andb]. apply andb_false_r.
             - reflexivity. }
           rewrite E. reflexivity.
      * assert (Hcu : is_underscore c = false) by exact Hu.
        assert (E : tail_ok (c :: r) = false).
        { unfold tail_ok. cbn [forallb]. rewrite Hc, Hcu. reflexivity. }
        rewrite E. reflexivity.
Qed.

Lemma ends_digit_or_underscore c r :
  isdigit c = true ->
  forallb (fun x => isdigit x || is_underscore x) r = true ->
  ends_with isdigit (c :: r) = negb (ends_with is_underscore r).
Proof.
  intros Hc Hall. unfold ends_with. simpl.
  destruct (rev r) as [|x l] eqn:E; simpl; [exact Hc|].
  assert (Hx : In x r) by (apply in_rev; rewrite E; left; reflexivity).
  rewrite forallb_forall in Hall. specialize (Hall x Hx).
  destruct (isdigit x) eqn:Hd.
  - rewrite (digit_not_underscore x Hd). reflexivity.
  - simpl in Hall. rewrite Hall. reflexivity.
Qed.

Lemma digits_with_underscores_cons c r :
  isdigit c = true -> digits_with_underscores (c :: r) = tail_ok r.
Proof.
  intros Hc. unfold digits_with_underscores, tail_ok.
  cbn [forallb begins_with]. rewrite Hc. cbn [orb andb].
  destruct (forallb (fun x => isdigit x || is_underscore x) r) eqn:Hall;
    [|reflexivity].
  rewrite (ends_digit_or_underscore c r Hc Hall). cbn [andb].
  destruct r as [|x r]; [reflexivity|].
  cbn [tl combine forallb fst snd].
  rewrite (digit_not_underscore c Hc). reflexivity.
Qed.

Lemma decimal_value_cons c l :
  decimal_value (c :: l) =
  fold_left (fun a x => (10 * a + digit_value x)%Z) l (digit_value c).
Proof. reflexivity. Qed.

(** The digits of an unsigned number, read together. *)
Lemma int_unsigned_spec u :
  int_unsigned u =
  if digits_with_underscores u
  then Some (decimal_value (filter isdigit u))
  else None.
Proof.
  destruct u as [|c r]; [reflexivity|].
  cbn [int_unsigned filter]. destruct (isdigit c) eqn:Hc.
  - rewrite (digits_with_underscores_cons c r Hc), decimal_value_cons.
    apply (int_digits_spec (n:=List.length r)). lia.
  - unfold digits_with_underscores. cbn [forallb begins_with].
    rewrite Hc, !andb_false_r. reflexivity.
Qed.

Lemma filter_lstrip (p q : ascii -> bool) s :
  (forall c, p c = true -> q c = false) ->
  filter q (lstrip_by p s) = filter q s.
Proof.
  intros H. induction s as [|c s IH]; [reflexivity|].
  cbn [lstrip_by]. destruct (p c) eqn:E; [|reflexivity].
  cbn [filter]. rewrite (H c E). exact IH.
Qed.

Lemma filter_rstrip (p q : ascii -> bool) s :
  (forall c, p c = true -> q c = false) ->
  filter q (rstrip_by p s) = filter q s.
Proof.
  intros H. unfold rstrip_by.
  rewrite filter_rev, (filter_lstrip p q (rev s) H), filter_rev.
  apply rev_involutive.
Qed.

Lemma space_not_digit c : int_isspace c = true -> isdigit c = false.
Proof.
  assert (H : forall x, implb (int_isspace x) (negb (isdigit x)) = true)
    by (apply check_all; vm_compute; reflexivity).
  intros Hc. specialize (H c). rewrite Hc in H. simpl in H.
  apply negb_true_iff. exact H.
Qed.

Lemma sign_not_digit c : is_sign c = true -> isdigit c = false.
Proof.
  assert (H : forall x, implb (is_sign x) (negb (isdigit x)) = true)
    by (apply check_all; vm_compute; reflexivity).
  intros Hc. specialize (H c). rewrite Hc in H. simpl in H.
  apply negb_true_iff. exact H.
Qed.

Lemma rstrip_first p t c r :
  rstrip_by p t = c :: r -> forall f, begins_with f t = f c.
Proof.
  intros E f. destruct (FieldFacts.rstrip_prefix p t) as [post Ht].
  rewrite E in Ht. rewrite Ht. reflexivity.
Qed.

(** [int] accepts exactly the valid integers and reads their digits
    together. *)
Lemma int_spec s :
  int s = if valid_integer s then Ok (integer_written s) else Raise ValueError.
Proof.
  unfold int, valid_integer, integer_written.
  assert (Hf : filter isdigit
                 (rstrip_by int_isspace (lstrip_by int_isspace s)) =
               filter isdigit s).
  { rewrite (filter_rstrip int_isspace isdigit _ space_not_digit).
    apply (filter_lstrip int_isspace isdigit s space_not_digit). }
  destruct (rstrip_by int_isspace (lstrip_by int_isspace s))
    as [|c r] eqn:Eb; [reflexivity|].
  rewrite (rstrip_first _ _ Eb (fun x => Ascii.eqb x "-")).
  cbn [without_sign]. unfold is_sign at 1.
  destruct (Ascii.eqb c "-") eqn:Em; cbn [orb].
  - assert (Hs : is_sign c = true) by (unfold is_sign; rewrite Em; reflexivity).
    cbn [filter] in Hf. rewrite (sign_not_digit c Hs) in Hf.
    rewrite int_unsigned_spec, Hf.
    destruct (digits_with_underscores r); reflexivity.
  - destruct (Ascii.eqb c "+") eqn:Ep.
    + assert (Hs : is_sign c = true)
        by (unfold is_sign; rewrite Ep; apply orb_true_r).
      cbn [filter] in Hf. rewrite (sign_not_digit c Hs) in Hf.
      rewrite int_unsigned_spec, Hf.
      destruct (digits_with_underscores r); reflexivity.
    + rewrite int_unsigned_spec, Hf.
      destruct (digits_with_underscores (c :: r)); reflexivity.
Qed.

(** *** Dates *)

Lemma check_pairs (P : ascii -> ascii -> bool) :
  forallb (fun a => forallb (P a) all_chars) all_chars = true ->
  forall a b, P a b = true.
Proof.
  intros H a b. revert b. apply check_all. revert a.
  apply (check_all (fun a => forallb (P a) all_chars)). exact H.
Qed.

Lemma opt_eqb_eq x y : opt_eqb x y = true -> x = y.
Proof.
  destruct x, y; simpl; try discriminate; [|reflexivity].
  intros H. apply Z.eqb_eq in H. congruence.
Qed.

Lemma day_text_pair a b :
  day_text [a; b] =
  match two_digit_day a b with
  | Some v => Some v
  | None => blank_day a b
  end.
Proof.
  unfold day_text, two_digit_day, blank_day.
  destruct (Ascii.eqb a " ") eqn:E.
  - apply Ascii.eqb_eq in E. subst a. reflexivity.
  - destruct (between 1 31 (numeral2 a b)); reflexivity.
Qed.

Lemma digit_day_not_blank a b :
  match day_text [a] with
  | Some _ => blank_day a b = None
  | None => True
  end.
Proof.
  unfold blank_day. destruct (Ascii.eqb a " ") eqn:E.
  - apply Ascii.eqb_eq in E. subst a. exact I.
  - destruct (day_text [a]); [reflexivity | exact I].
Qed.

Lemma month_digit a :
  (if digit_in 1 9 a then Some (digit_value a) else None) = month_text [a].
Proof.
  apply opt_eqb_eq. revert a. apply check_all. vm_compute. reflexivity.
Qed.

Lemma day_digit a :
  (if digit_in 1 9 a then Some (digit_value a) else None) = day_text [a].
Proof.
  apply opt_eqb_eq. revert a. apply check_all. vm_compute. reflexivity.
Qed.

Lemma month_pair_ok a b : month_pair_check a b = true.
Proof. revert a b. apply check_pairs. vm_compute. reflexivity. Qed.

Lemma day_pair_ok a b : day_pair_check a b = true.
Proof. revert a b. apply check_pairs. vm_compute. reflexivity. Qed.

Lemma blank_pair_ok a b : blank_pair_check a b = true.
Proof. revert a b. apply check_pairs. vm_compute. reflexivity. Qed.

Ltac split_check H :=
  apply andb_true_iff in H; destruct H as [?Hx ?He];
  apply opt_eqb_eq in He.

Lemma month_alternatives_cons2 a b r :
  month_alternatives (a :: b :: r) =
  olist (month_text [a; b]) r ++ olist (month_text [a]) (b :: r).
Proof.
  pose proof (month_pair_ok a b) as H. unfold month_pair_check in H.
  split_check H. rewrite <- He, <- (month_digit a).
  unfold month_alternatives, month_pair. unfold exclusive in Hx.
  destruct (Ascii.eqb a "1" && digit_in 0 2 b);
    destruct (Ascii.eqb a "0" && digit_in 1 9 b);
    destruct (digit_in 1 9 a);
    try discriminate Hx; reflexivity.
Qed.

Lemma month_alternatives_one a :
  month_alternatives [a] = olist (month_text [a]) [].
Proof.
  rewrite <- (month_digit a). unfold month_alternatives.
  destruct (digit_in 1 9 a); reflexivity.
Qed.

Lemma day_alternatives_cons2 a b r :
  day_alternatives (a :: b :: r) =
  olist (two_digit_day a b) r ++ olist (day_text [a]) (b :: r)
  ++ olist (blank_day a b) r.
Proof.
  pose proof (day_pair_ok a b) as H. unfold day_pair_check in H.
  split_check H.
  pose proof (blank_pair_ok a b) as Hb. unfold blank_pair_check in Hb.
  apply opt_eqb_eq in Hb.
  rewrite <- He, <- (day_digit a), <- Hb.
  unfold day_alternatives, day_pair. unfold exclusive in Hx.
  destruct (Ascii.eqb a "3" && digit_in 0 1 b);
    destruct (digit_in 1 2 a && isdigit b);
    destruct (Ascii.eqb a "0" && digit_in 1 9 b);
    destruct (digit_in 1 9 a);
    destruct (Ascii.eqb a " " && digit_in 1 9 b);
    try discriminate Hx; reflexivity.
Qed.

Lemma day_alternatives_one a :
  day_alternatives [a] = olist (day_text [a]) [].
Proof.
  rewrite <- (day_digit a). unfold day_alternatives.
  destruct (digit_in 1 9 a); reflexivity.
Qed.

Lemma day_alternatives_nil : day_alternatives [] = [].
Proof. reflexivity. Qed.

Ltac finish_date :=
  cbn [olist app flat_map map year month day];
  try reflexivity; try discriminate;
  repeat match goal with
         | H : Some _ = None |- _ => discriminate H
         | |- context [if ?c then _ else _] => destruct c
         end;
  try reflexivity.

(** [strptime] with the format [%y%m%d] accepts exactly the dates that are
    written, and reads them as written. *)
Lemma strptime_spec s :
  strptime_ymd s =
  match date_written s with
  | Some dt => Ok dt
  | None => Raise ValueError
  end.
Proof.
  destruct s as [|y1 [|y2 rest]]; try reflexivity.
  unfold strptime_ymd, date_written, date_readings.
  destruct (isdigit y1 && isdigit y2); [|reflexivity].
  fold (full_year (10 * digit_value y1 + digit_value y2)).
  generalize (full_year (10 * digit_value y1 + digit_value y2)). intros y.
  destruct rest as [|a [|b [|c [|d [|e r]]]]].
  - reflexivity.
  - rewrite month_alternatives_one. cbn [firstn skipn flat_map app].
    destruct (month_text [a]); reflexivity.
  - rewrite month_alternatives_cons2. cbn [firstn skipn flat_map app].
    change (day_text []) with (@None Z).
    destruct (month_text [a; b]); destruct (month_text [a]);
      cbn [olist app flat_map map];
      rewrite ?day_alternatives_one, ?day_alternatives_nil;
      try reflexivity;
      destruct (day_text [b]); finish_date.
  - rewrite month_alternatives_cons2. cbn [firstn skipn flat_map app].
    rewrite (day_text_pair b c).
    pose proof (digit_day_not_blank b c) as Hbc.
    destruct (month_text [a; b]); destruct (month_text [a]);
      cbn [olist app flat_map map];
      rewrite ?day_alternatives_one, ?day_alternatives_cons2,
        ?day_alternatives_nil;
      destruct (day_text [c]); destruct (two_digit_day b c);
      destruct (day_text [b]); destruct (blank_day b c);
      finish_date.
  - rewrite month_alternatives_cons2. cbn [firstn skipn flat_map app].
    rewrite (day_text_pair c d).
    change (day_text [b; c; d]) with (@None Z).
    pose proof (digit_day_not_blank c d) as Hcd.
    destruct (month_text [a; b]); destruct (month_text [a]);
      cbn [olist app flat_map map];
      rewrite ?day_alternatives_cons2, ?day_alternatives_one,
        ?day_alternatives_nil;
      destruct (two_digit_day c d); destruct (day_text [c]);
      destruct (blank_day c d);
      destruct (two_digit_day b c); destruct (day_text [b]);
      destruct (blank_day b c);
      finish_date.
  - rewrite month_alternatives_cons2. cbn [firstn skipn flat_map app].
    change (day_text (c :: d :: e :: r)) with (@None Z).
    change (day_text (b :: c :: d :: e :: r)) with (@None Z).
    destruct (month_text [a; b]); destruct (month_text [a]);
      cbn [olist app flat_map map];
      rewrite ?day_alternatives_cons2, ?day_alternatives_one,
        ?day_alternatives_nil;
      destruct (two_digit_day c d); destruct (day_text [c]);
      destruct (blank_day c d);
      destruct (two_digit_day b c); destruct (day_text [b]);
      destruct (blank_day b c);
      finish_date.
Qed.

(** *** The builder *)

Lemma lstrip_split p s :
  exists pre, s = pre ++ lstrip_by p s /\ forallb p pre = true.
Proof.
  induction s as [|c s (pre & IH & Hpre)]; simpl.
  - exists []. split; reflexivity.
  - destruct (p c) eqn:E.
    + exists (c :: pre). simpl. rewrite E. split; [f_equal; exact IH | exact Hpre].
    + exists []. split; reflexivity.
Qed.

Lemma rstrip_split p s :
  exists post, s = rstrip_by p s ++ post /\ forallb p post = true.
Proof.
  unfold rstrip_by. destruct (lstrip_split p (rev s)) as (pre & H & Hpre).
  exists (rev pre). split.
  - rewrite <- rev_app_distr, <- H. symmetry. apply rev_involutive.
  - rewrite FieldFacts.forallb_rev. exact Hpre.
Qed.

Lemma strip_trimmed s : trimmed (strip s) s.
Proof.
  destruct (lstrip_split isspace s) as (pre & Hs & Hpre).
  destruct (rstrip_split isspace (lstrip_by isspace s)) as (post & Hl & Hpost).
  exists pre, post. repeat split.
  - unfold strip. rewrite <- Hl. exact Hs.
  - exact Hpre.
  - exact Hpost.
  - apply FieldFacts.strip_begins.
  - apply FieldFacts.strip_ends.
Qed.

Lemma lstrip_zeros s :
  without_leading_zeros (lstrip_by is_zero_char s) s.
Proof.
  destruct (lstrip_split is_zero_char s) as (zeros & Hs & Hz).
  exists zeros. repeat split; [exact Hs | exact Hz |].
  apply (FieldFacts.lstrip_begins is_zero_char).
Qed.

Lemma message_of_fragments (row : str) rest :
  message_of (row :: rest) = join [LF] (map fragment rest).
Proof. unfold message_of. destruct rest; reflexivity. Qed.

(** The builder, said with the columns, the dates and the integers. *)
Lemma parse_from_list_spec row rest :
  parse_from_list (row :: rest) =
  match date_written (strip (chars_at 42 48 row)) with
  | Some dt =>
      if valid_integer (delete_separators (strip (chars_at 87 106 row)))
      then Ok {| p_datetime := dt;
                 amount := integer_written
                             (delete_separators (strip (chars_at 87 106 row)));
                 payer := strip (chars_at 108 143 row);
                 reference :=
                   lstrip_by is_zero_char (strip (chars_at 160 179 row));
                 message := join [LF] (map fragment rest) |}
      else Raise ValueError
  | None => Raise ValueError
  end.
Proof.
  rewrite PaymentFacts.parse_from_list_eq, !slice_chars_at, strptime_spec,
    int_spec, message_of_fragments.
  change (Re.sub_class_empty is_comma_or_period (strip (chars_at 87 106 row)))
    with (delete_separators (strip (chars_at 87 106 row))).
  destruct (date_written (strip (chars_at 42 48 row))); [|reflexivity].
  destruct (valid_integer _); reflexivity.
Qed.

Lemma date_written_well_formed s :
  well_formed_yymmdd s = true -> date_written s = Some (date_of_yymmdd s).
Proof.
  intros H. apply ParserFacts.strptime_well_formed in H.
  rewrite strptime_spec in H.
  destruct (date_written s); congruence.
Qed.

End SpecFacts.

(** * The payment builder *)

(** C10: the suppression pattern is tested on the Transaction line only.
    Every description line that follows without a gap is appended to the
    group, whatever it contains, so also when it contains a suppression
    keyword; and when the first line holds a date and an integer, the
    Payment is built and its message has one fragment for each of these
    lines. *)
Theorem suppression_only_on_transaction_line v ds x rest :
  starts_group v = true ->
  Forall (fun l => is_description l = true) ds ->
  is_description x = false ->
  take_descriptions [v] (ds ++ x :: rest) = Ok (v :: ds) /\
  group_transactions (v :: ds ++ x :: rest) =
  (gs <- group_transactions (x :: rest) ;; Ok ((v :: ds) :: gs)) /\
  (forall p, parse_from_list (v :: ds) = Ok p ->
             message p = join [LF] (map fragment ds)) /\
  (forall dt,
      date_written (strip (chars_at 42 48 v)) = Some dt ->
      valid_integer (delete_separators (strip (chars_at 87 106 v))) = true ->
      exists p, parse_from_list (v :: ds) = Ok p /\
                message p = join [LF] (map fragment ds)).
Proof.
  intros Hv Hds Hx. split; [|split; [|split]].
  - apply GrouperFacts.take_descriptions_run; assumption.
  - unfold group_transactions.
    rewrite GrouperFacts.scan_group by assumption.
    apply MainFacts.scan_acc.
  - intros p Hp. rewrite SpecFacts.parse_from_list_spec in Hp.
    destruct (date_written _); [|discriminate].
    destruct (valid_integer _); [|discriminate].
    injection Hp as <-. reflexivity.
  - intros dt Hd Ha. rewrite SpecFacts.parse_from_list_spec, Hd, Ha.
    eexists. split; reflexivity.
Qed.

Lemma suppression_only_on_transaction_line_witness :
  is_interesting (description_line (py "  PALVELUMAKSU 5,00 ")) = false /\
  group_transactions
    [sample_transaction; description_line (py "  PALVELUMAKSU 5,00 "); py "T40"]
  = Ok [[sample_transaction; description_line (py "  PALVELUMAKSU 5,00 ")]] /\
  exists p,
    parse_from_list
      [sample_transaction; description_line (py "  PALVELUMAKSU 5,00 ")]
    = Ok p /\
    message p = py "PALVELUMAKSU 5,00".
Proof.
  destruct (@suppression_only_on_transaction_line
              sample_transaction
              [description_line (py "  PALVELUMAKSU 5,00 ")] (py "T40") [])
    as (_ & Hg & _ & Hex).
  - vm_compute. reflexivity.
  - apply all_descriptions_check. vm_compute. reflexivity.
  - vm_compute. reflexivity.
  - split; [vm_compute; reflexivity | split].
    + etransitivity; [exact Hg | vm_compute; reflexivity].
    + destruct (Hex {| year := 2015; month := 4; day := 1 |})
        as (p & Hp & Hm).
      * vm_compute. reflexivity.
      * vm_compute. reflexivity.
      * exists p. split; [exact Hp|].
        etransitivity; [exact Hm | vm_compute; reflexivity].
Defined.

(** C4: the Payment takes its fields from fixed columns of the first line,
    whatever the length of the line: the date is the one written in columns
    42 to 47, trimmed, the YYMMDD date when they hold one; the amount is
    the integer written in columns 87 to 105, trimmed, commas and periods
    deleted; the payer is columns 108 to 142, trimmed; the reference is
    columns 160 to 178, trimmed and without its leading zeros.  The Payment
    is built whenever the date and the integer are there.  So 150401 is the
    first of April 2015, 1,234.56 is 123456, 000000001234 is 1234 and
    0000123 is 123. *)
Theorem payment_fields (row : str) (rest : list str) :
  (forall p,
      parse_from_list (row :: rest) = Ok p ->
      date_written (strip (chars_at 42 48 row)) = Some (p_datetime p) /\
      (well_formed_yymmdd (strip (chars_at 42 48 row)) = true ->
       p_datetime p = date_of_yymmdd (strip (chars_at 42 48 row))) /\
      valid_integer (delete_separators (strip (chars_at 87 106 row))) = true /\
      amount p =
      integer_written (delete_separators (strip (chars_at 87 106 row))) /\
      payer p = strip (chars_at 108 143 row) /\
      trimmed (payer p) (chars_at 108 143 row) /\
      reference p = lstrip_by is_zero_char (strip (chars_at 160 179 row)) /\
      (exists t, trimmed t (chars_at 160 179 row) /\
                 without_leading_zeros (reference p) t)) /\
  (forall dt,
      date_written (strip (chars_at 42 48 row)) = Some dt ->
      valid_integer (delete_separators (strip (chars_at 87 106 row))) = true ->
      exists p, parse_from_list (row :: rest) = Ok p) /\
  date_written (py "150401") = Some {| year := 2015; month := 4; day := 1 |} /\
  date_of_yymmdd (py "150401") = {| year := 2015; month := 4; day := 1 |} /\
  integer_written (delete_separators (py "1,234.56")) = 123456%Z /\
  integer_written (delete_separators (py "000000001234")) = 1234%Z /\
  without_leading_zeros (py "123") (py "0000123").
Proof.
  split; [|split; [|repeat split]].
  - intros p Hp. rewrite SpecFacts.parse_from_list_spec in Hp.
    destruct (date_written (strip (chars_at 42 48 row))) as [dt|] eqn:Hd;
      [|discriminate].
    destruct (valid_integer _) eqn:Ha; [|discriminate].
    injection Hp as <-. cbn [p_datetime amount payer reference].
    split; [reflexivity | split; [|split; [|split; [|split; [|split; [|split]]]]]].
    + intros Hw. apply SpecFacts.date_written_well_formed in Hw. congruence.
    + reflexivity.
    + reflexivity.
    + reflexivity.
    + apply SpecFacts.strip_trimmed.
    + reflexivity.
    + exists (strip (chars_at 160 179 row)). split.
      * apply SpecFacts.strip_trimmed.
      * apply SpecFacts.lstrip_zeros.
  - intros dt Hd Ha. rewrite SpecFacts.parse_from_list_spec, Hd, Ha.
    eexists. reflexivity.
  - exists (py "0000"). repeat split.
Qed.

Lemma payment_fields_witness :
  (exists p,
      parse_from_list [sample_transaction] = Ok p /\
      p_datetime p = {| year := 2015; month := 4; day := 1 |} /\
      amount p = 1234%Z /\ payer p = py "JOHN DOE" /\
      reference p = py "123") /\
  List.length short_transaction = 167 /\
  (exists p,
      parse_from_list [short_transaction] = Ok p /\
      p_datetime p = {| year := 2015; month := 4; day := 1 |} /\
      amount p = 1234%Z /\ payer p = py "JOHN DOE" /\
      reference p = py "123").
Proof.
  split; [|split; [vm_compute; reflexivity|]].
  - destruct (payment_fields sample_transaction []) as (Hf & Hex & _).
    destruct (Hex {| year := 2015; month := 4; day := 1 |}) as (p & Hp);
      [vm_compute; reflexivity | vm_compute; reflexivity |].
    destruct (Hf p Hp) as (Hd & _ & _ & Ha & Hpay & _ & Href & _).
    exists p. split; [exact Hp | split; [|split; [|split]]].
    + assert (E : Some (p_datetime p) =
                  Some {| year := 2015; month := 4; day := 1 |})
        by (rewrite <- Hd; vm_compute; reflexivity).
      injection E as E. exact E.
    + etransitivity; [exact Ha | vm_compute; reflexivity].
    + etransitivity; [exact Hpay | vm_compute; reflexivity].
    + etransitivity; [exact Href | vm_compute; reflexivity].
  - destruct (payment_fields short_transaction []) as (Hf & Hex & _).
    destruct (Hex {| year := 2015; month := 4; day := 1 |}) as (p & Hp);
      [vm_compute; reflexivity | vm_compute; reflexivity |].
    destruct (Hf p Hp) as (Hd & _ & _ & Ha & Hpay & _ & Href & _).
    exists p. split; [exact Hp | split; [|split; [|split]]].
    + assert (E : Some (p_datetime p) =
                  Some {| year := 2015; month := 4; day := 1 |})
        by (rewrite <- Hd; vm_compute; reflexivity).
      injection E as E. exact E.
    + etransitivity; [exact Ha | vm_compute; reflexivity].
    + etransitivity; [exact Hpay | vm_compute; reflexivity].
    + etransitivity; [exact Href | vm_compute; reflexivity].
Defined.

(** C3 (as amended): building a Payment fails, with ValueError and nothing
    else, exactly when columns 42 to 47, trimmed, do not write a date, or
    columns 87 to 105, trimmed, commas and periods deleted, do not write a
    valid integer; otherwise the whole Payment is built.  A date is two
    digits of year, a month in two digits or one, and a day of that month
    in two digits, in one, or as a blank and a digit; a well-formed YYMMDD
    date is one.  A valid integer is decimal digits, where single
    underscores may stand between digits, after an optional sign, with
    white space around.  A failure ends the run with that exception and
    without the closing message.  A day the month does not have, a letter
    in the date, a letter in the amount and an empty amount make the build
    fail. *)
Theorem parse_error_iff (row : str) (rest : list str) :
  (parse_from_list (row :: rest) = Raise ValueError <->
   date_written (strip (chars_at 42 48 row)) = None \/
   valid_integer (delete_separators (strip (chars_at 87 106 row))) = false) /\
  (forall e, parse_from_list (row :: rest) = Raise e -> e = ValueError) /\
  (forall dt,
      date_written (strip (chars_at 42 48 row)) = Some dt ->
      valid_integer (delete_separators (strip (chars_at 87 106 row))) = true ->
      parse_from_list (row :: rest) =
      Ok {| p_datetime := dt;
            amount := integer_written
                        (delete_separators (strip (chars_at 87 106 row)));
            payer := strip (chars_at 108 143 row);
            reference := lstrip_by is_zero_char (strip (chars_at 160 179 row));
            message := join [LF] (map fragment rest) |}) /\
  (well_formed_yymmdd (strip (chars_at 42 48 row)) = true ->
   date_written (strip (chars_at 42 48 row)) =
   Some (date_of_yymmdd (strip (chars_at 42 48 row)))) /\
  (forall filecontents transactions,
      group_transactions (decoded_lines filecontents) = Ok transactions ->
      In (row :: rest) transactions ->
      parse_from_list (row :: rest) = Raise ValueError ->
      raised (main filecontents) = Some ValueError /\
      stdout (main filecontents) = []) /\
  parse_from_list [transaction_line (py "150431") (py "1,234.56")
                                    (py "JOHN DOE") (py "0000123")]
  = Raise ValueError /\
  parse_from_list [transaction_line (py "15041x") (py "1,234.56")
                                    (py "JOHN DOE") (py "0000123")]
  = Raise ValueError /\
  parse_from_list [transaction_line (py "150401") (py "12a")
                                    (py "JOHN DOE") (py "0000123")]
  = Raise ValueError /\
  parse_from_list [transaction_line (py "150401") (py "")
                                    (py "JOHN DOE") (py "0000123")]
  = Raise ValueError.
Proof.
  pose proof (SpecFacts.parse_from_list_spec row rest) as E.
  split; [|split; [|split; [|split; [|split]]]].
  - rewrite E. split.
    + destruct (date_written _); [|intros _; left; reflexivity].
      destruct (valid_integer _); [discriminate|].
      intros _. right. reflexivity.
    + intros [H | H].
      * rewrite H. reflexivity.
      * rewrite H. destruct (date_written _); reflexivity.
  - intros e. apply PaymentFacts.parse_from_list_raises.
  - intros dt Hd Ha. rewrite E, Hd, Ha. reflexivity.
  - apply SpecFacts.date_written_well_formed.
  - intros filecontents transactions H Hin Hp.
    assert (Hne : transactions <> []) by (intros ->; destruct Hin).
    rewrite (MainFacts.main_writes _ H Hne). simpl.
    rewrite PaymentFacts.first_failure_value; [split; reflexivity | |].
    + rewrite (MainFacts.groups_found _ H). apply GrouperFacts.groups_of_nonempty.
    + apply Exists_exists. eauto.
  - repeat split; vm_compute; reflexivity.
Qed.

(** C3, as stated, fails: a date that is not six digits of year, month and
    day need not make the build fail.  A month or a day written with one
    digit is read, and so is a day written as a blank and a digit; an
    integer may have a sign and underscores between its digits. *)
Lemma short_date_is_parsed :
  strip (chars_at 42 48 (transaction_line (py "1541") (py "1,234.56")
                                          (py "JOHN DOE") (py "0000123")))
  = py "1541" /\
  well_formed_yymmdd (py "1541") = false /\
  parse_from_list [transaction_line (py "1541") (py "1,234.56")
                                    (py "JOHN DOE") (py "0000123")]
  = Ok {| p_datetime := {| year := 2015; month := 4; day := 1 |};
          amount := 123456; payer := py "JOHN DOE"; reference := py "123";
          message := [] |} /\
  strip (chars_at 42 48 (transaction_line (py "1504 1") (py "1,234.56")
                                          (py "JOHN DOE") (py "0000123")))
  = py "1504 1" /\
  well_formed_yymmdd (py "1504 1") = false /\
  parse_from_list [transaction_line (py "1504 1") (py "1,234.56")
                                    (py "JOHN DOE") (py "0000123")]
  = Ok {| p_datetime := {| year := 2015; month := 4; day := 1 |};
          amount := 123456; payer := py "JOHN DOE"; reference := py "123";
          message := [] |} /\
  parse_from_list [transaction_line (py "150401") (py "-1_234.56")
                                    (py "JOHN DOE") (py "0000123")]
  = Ok {| p_datetime := {| year := 2015; month := 4; day := 1 |};
          amount := -123456; payer := py "JOHN DOE"; reference := py "123";
          message := [] |}.
Proof. repeat split; vm_compute; reflexivity. Qed.
